(** * Privy plugin: policy rule editor, configuration validation and
      action handlers

    Shallow embedding of
      - [allowlistToken] / [denylistToken]       (services/policies.ts),
      - [validatePrivyConfig]                    (environment.ts),
      - the eight action handlers of [PrivyPlugin] (index.ts),
    together with the properties of the plugin's specification.

    The policy editor works on JavaScript objects that are shared between
    the policy it receives and the body it returns, so it is modelled over
    an explicit object store.  The handlers are asynchronous functions
    that may throw and that talk to the Privy REST clients; they are
    modelled in a small exception monad that records every client
    operation invoked, first with the [Error] objects that the throw
    sites of the repository raise, then ([Boundary]) with collaborators
    that may throw any value.  The clients themselves (policy and wallet
    service) are modelled over [fetch], with the requests they send. *)

From Stdlib Require Import Ascii ZArith Bool.
From Stdlib Require String.
From stdpp Require Import base option list strings gmap.

(* ===================================================================== *)
(** ** JavaScript string primitives used by the plugin *)
(* ===================================================================== *)

Module Js.

(** A value of type [string | null | undefined] is truthy exactly when
    it is a non-empty string; [nonempty] keeps the string in that case. *)
Definition nonempty (v : option string) : option string :=
  match v with
  | Some s => if String.eqb s "" then None else Some s
  | None => None
  end.

Definition truthy (v : option string) : bool :=
  match nonempty v with
  | Some _ => true
  | None => false
  end.

(** [a || b] where both sides may be undefined. *)
Definition or_opt (a b : option string) : option string :=
  if truthy a then a else b.

(** [a || b] where [b] is a string. *)
Definition or_else (a : option string) (b : string) : string :=
  match nonempty a with
  | Some s => s
  | None => b
  end.

(** [String.prototype.includes]: [needle] occurs in [hay]. *)
Fixpoint includes (needle hay : string) : bool :=
  String.prefix needle hay ||
  match hay with
  | EmptyString => false
  | String _ rest => includes needle rest
  end.

(** Drop the first [n] characters. *)
Fixpoint skip (n : nat) (s : string) : string :=
  match n, s with
  | O, _ => s
  | S n', String _ rest => skip n' rest
  | S _, EmptyString => EmptyString
  end.

(** [s.replace(pattern, replacement)] with a string pattern: only the
    first occurrence is replaced. *)
Fixpoint replace (pattern replacement s : string) : string :=
  if String.prefix pattern s
  then replacement +:+ skip (String.length pattern) s
  else match s with
       | EmptyString => EmptyString
       | String c rest => String c (replace pattern replacement rest)
       end.

(** [Array.prototype.join]. *)
Fixpoint join (sep : string) (l : list string) : string :=
  match l with
  | [] => ""
  | [x] => x
  | x :: rest => x +:+ sep +:+ join sep rest
  end.

Definition lower_ascii (c : ascii) : ascii :=
  let n := nat_of_ascii c in
  if (Nat.leb 65 n && Nat.leb n 90)%bool then ascii_of_nat (n + 32) else c.

(** [String.prototype.toLowerCase], on the ASCII letters.  Characters
    outside ASCII are left as they are; no such character lower-cases
    to a letter of ["ethereum"], ["solana"] or ["monad"], so
    the chain-type test of the wallet handler is not affected. *)
Fixpoint toLowerCase (s : string) : string :=
  match s with
  | EmptyString => EmptyString
  | String c rest => String (lower_ascii c) (toLowerCase rest)
  end.

(** [Array.prototype.includes] on an array of strings. *)
Definition array_includes (l : list string) (s : string) : bool :=
  existsb (String.eqb s) l.

Definition newline : string := String (ascii_of_nat 10) EmptyString.

End Js.

(* ===================================================================== *)
(** ** Privy API entities (types/policies.ts, types/wallets.ts) *)
(* ===================================================================== *)

(** [abi?: JSON] of a condition.  The plugin never inspects it. *)
#[local] Set Warnings "-register-all".
Inductive JSON : Type :=
| JNull
| JBool (b : bool)
| JNumber (n : Z)
| JString (s : string)
| JArray (l : list JSON)
| JObject (fields : list (string * JSON)).
#[local] Set Warnings "register-all".

(** [value: string | number | string[]] *)
Inductive ConditionValue : Type :=
| VString (s : string)
| VNumber (n : Z)
| VStrings (l : list string).

Inductive PolicyAction : Type := ALLOW | DENY.

Record PrivyCondition : Type := {
  field_source : string;
  field : string;
  abi : option JSON;
  operator : string;
  value : ConditionValue
}.

(** [conditions] is declared as an array; the editor reads it through
    [?.], so an absent array is representable. *)
Record PrivyRule : Type := {
  rule_name : string;
  conditions : option (list PrivyCondition);
  action : PolicyAction
}.

(** A method rule as a plain value (a parsed response, or a snapshot of
    an object of the store). *)
Record PrivyMethodRule : Type := {
  method : string;
  rules : list PrivyRule
}.

Record PrivyPolicyResponse : Type := {
  policy_id : string;
  version : string;
  policy_name : string;
  policy_chain_type : string;
  method_rules : list PrivyMethodRule;
  default_action : PolicyAction
}.

Record PrivyCreateWalletResponse : Type := {
  wallet_id : string;
  address : string;
  wallet_chain_type : string;
  wallet_policy_ids : list string
}.

Record PrivyCreateWalletRequest : Type := {
  chain_type : string;
  policy_ids : option (list string)
}.

Record PrivyUpdateWalletRequest : Type := {
  update_policy_ids : option (list string)
}.

Record PrivyTransactionRequest : Type := {
  tx_wallet_id : string;
  tx_to : string;
  tx_value : string;
  tx_data : option string
}.

Record PrivyTransactionResponse : Type := {
  hash : string;
  caip2 : string
}.

Record PrivySignatureResponse : Type := {
  signature : string
}.

(* ===================================================================== *)
(** ** The policy rule editor over an object store *)
(* ===================================================================== *)

Module Editor.

Definition loc := positive.

(** A [PrivyMethodRule] object: its [rules] property refers to an array
    of the store, and can be reassigned. *)
Record MethodRuleObj : Type := {
  obj_method : string;
  obj_rules : loc
}.

(** The part of the JavaScript heap the editor touches.  Rules and
    conditions are never mutated and are kept as values. *)
Record Store : Type := {
  method_rule_arrays : gmap loc (list loc);
  method_rule_objs : gmap loc MethodRuleObj;
  rule_arrays : gmap loc (list PrivyRule)
}.

(** The policy object handed to the editor.  The editor reads [name]
    and [method_rules] only, and guards against an absent
    [method_rules]. *)
Record PolicyObj : Type := {
  existing_id : string;
  existing_version : string;
  existing_name : string;
  existing_chain_type : string;
  existing_method_rules : option loc;
  existing_default_action : PolicyAction
}.

(** [PrivyUpdatePolicy]: every field is optional. *)
Record PrivyUpdatePolicy : Type := {
  name : option string;
  updated_method_rules : option loc;
  updated_default_action : option PolicyAction
}.

(** State monad over the store; [None] is a dangling reference, which
    no JavaScript execution produces. *)
Definition M (A : Type) : Type := Store → option (A * Store).

Definition ret {A} (a : A) : M A := λ σ, Some (a, σ).

Definition bind {A B} (m : M A) (k : A → M B) : M B :=
  λ σ, match m σ with
       | Some (a, σ') => k a σ'
       | None => None
       end.

Declare Scope editor_scope.
Delimit Scope editor_scope with editor.
Notation "'do' x <- m ; k" := (bind m (λ x, k))
  (at level 10, x name, m at level 100, k at level 200) : editor_scope.
Notation "m ;; k" := (bind m (λ _, k))
  (at level 100, k at level 200, right associativity) : editor_scope.
Local Open Scope editor_scope.

Definition read_method_rule_array (a : loc) : M (list loc) :=
  λ σ, match method_rule_arrays σ !! a with
       | Some elems => Some (elems, σ)
       | None => None
       end.

(** A new array object holding [elems]. *)
Definition alloc_method_rule_array (elems : list loc) : M loc :=
  λ σ, let a := fresh (dom (method_rule_arrays σ)) in
       Some (a, {| method_rule_arrays := <[a := elems]> (method_rule_arrays σ);
                   method_rule_objs := method_rule_objs σ;
                   rule_arrays := rule_arrays σ |}).

Definition read_method_rule (l : loc) : M MethodRuleObj :=
  λ σ, match method_rule_objs σ !! l with
       | Some o => Some (o, σ)
       | None => None
       end.

(** [obj.rules = r] *)
Definition set_rules (l : loc) (r : loc) : M unit :=
  λ σ, match method_rule_objs σ !! l with
       | Some o =>
           Some (tt, {| method_rule_arrays := method_rule_arrays σ;
                        method_rule_objs :=
                          <[l := {| obj_method := obj_method o; obj_rules := r |}]>
                            (method_rule_objs σ);
                        rule_arrays := rule_arrays σ |})
       | None => None
       end.

Definition read_rule_array (r : loc) : M (list PrivyRule) :=
  λ σ, match rule_arrays σ !! r with
       | Some rs => Some (rs, σ)
       | None => None
       end.

Definition alloc_rule_array (rs : list PrivyRule) : M loc :=
  λ σ, let r := fresh (dom (rule_arrays σ)) in
       Some (r, {| method_rule_arrays := method_rule_arrays σ;
                   method_rule_objs := method_rule_objs σ;
                   rule_arrays := <[r := rs]> (rule_arrays σ) |}).

(** [array.push(rule)]: the array object is extended in place. *)
Definition push (r : loc) (rule : PrivyRule) : M unit :=
  λ σ, match rule_arrays σ !! r with
       | Some rs =>
           Some (tt, {| method_rule_arrays := method_rule_arrays σ;
                        method_rule_objs := method_rule_objs σ;
                        rule_arrays := <[r := rs ++ [rule]]> (rule_arrays σ) |})
       | None => None
       end.

(** [existingPolicy.method_rules ? [...existingPolicy.method_rules] : []]:
    a new array with the same elements, that is, the same method-rule
    objects. *)
Definition copy_method_rules (mrs : option loc) : M loc :=
  match mrs with
  | Some a => do elems <- read_method_rule_array a; alloc_method_rule_array elems
  | None => alloc_method_rule_array []
  end.

Definition newRule (tokenName tokenAddress : string) : PrivyRule :=
  {| rule_name := "Allowlist " +:+ tokenName;
     conditions := Some [ {| field_source := "ethereum_transaction";
                             field := "to";
                             abi := None;
                             operator := "eq";
                             value := VString tokenAddress |} ];
     action := ALLOW |}.

Definition allowlistToken (existingPolicy : PolicyObj)
    (tokenName tokenAddress : string) : M PrivyUpdatePolicy :=
  let newRule := newRule tokenName tokenAddress in
  do mrs <- copy_method_rules (existing_method_rules existingPolicy);
  let updatedPolicy :=
    {| name := Some (existing_name existingPolicy);
       updated_method_rules := Some mrs;
       updated_default_action := None |} in
  do elems <- read_method_rule_array mrs;
  match elems !! 0%nat with
  | Some first =>
      do o <- read_method_rule first;
      push (obj_rules o) newRule ;;
      ret updatedPolicy
  | None => ret updatedPolicy
  end.

Definition value_is (v : ConditionValue) (tokenAddress : string) : bool :=
  match v with
  | VString s => String.eqb s tokenAddress
  | VNumber _ => false
  | VStrings _ => false
  end.

(** The callback given to [some]. *)
Definition matches_token (tokenAddress : string) (condition : PrivyCondition) : bool :=
  String.eqb (field_source condition) "ethereum_transaction" &&
  String.eqb (field condition) "to" &&
  value_is (value condition) tokenAddress.

(** [rule.conditions?.some(...)]: undefined when there is no array. *)
Definition isTokenRule (tokenAddress : string) (rule : PrivyRule) : option bool :=
  existsb (matches_token tokenAddress) <$> conditions rule.

(** The callback given to [filter]: [!isTokenRule], with [!undefined]
    being true. *)
Definition keep_rule (tokenAddress : string) (rule : PrivyRule) : bool :=
  match isTokenRule tokenAddress rule with
  | Some b => negb b
  | None => true
  end.

Definition denylistToken (existingPolicy : PolicyObj)
    (tokenName tokenAddress : string) : M PrivyUpdatePolicy :=
  do mrs <- copy_method_rules (existing_method_rules existingPolicy);
  let updatedPolicy :=
    {| name := Some (existing_name existingPolicy);
       updated_method_rules := Some mrs;
       updated_default_action := None |} in
  do elems <- read_method_rule_array mrs;
  match elems !! 0%nat with
  | Some first =>
      do o <- read_method_rule first;
      do rs <- read_rule_array (obj_rules o);
      do filtered <- alloc_rule_array (List.filter (keep_rule tokenAddress) rs);
      set_rules first filtered ;;
      ret updatedPolicy
  | None => ret updatedPolicy
  end.

(** *** Reading object graphs back as values *)

Definition snapshot_method_rule (σ : Store) (l : loc) : option PrivyMethodRule :=
  o ← method_rule_objs σ !! l;
  rs ← rule_arrays σ !! obj_rules o;
  Some {| method := obj_method o; rules := rs |}.

(** The value of the array of method rules at [a]. *)
Definition snapshot (σ : Store) (a : loc) : option (list PrivyMethodRule) :=
  elems ← method_rule_arrays σ !! a;
  mapM (snapshot_method_rule σ) elems.

(** [policy.method_rules[0].rules] as a value. *)
Definition first_rules (σ : Store) (mrs : loc) : option (list PrivyRule) :=
  elems ← method_rule_arrays σ !! mrs;
  first ← elems !! 0%nat;
  rules <$> snapshot_method_rule σ first.

(** *** The specification's vocabulary *)

(** A condition that matches transactions sent to [tokenAddress]. *)
Definition condition_matches (tokenAddress : string) (c : PrivyCondition) : Prop :=
  field_source c = "ethereum_transaction" ∧ field c = "to" ∧
  value c = VString tokenAddress.

(** A rule with at least one such condition. *)
Definition targets_token (tokenAddress : string) (rule : PrivyRule) : Prop :=
  Exists (condition_matches tokenAddress) (default [] (conditions rule)).

#[global] Instance ConditionValue_eq_dec : EqDecision ConditionValue.
Proof. solve_decision. Defined.

#[global] Instance condition_matches_dec tokenAddress c :
  Decision (condition_matches tokenAddress c).
Proof. unfold condition_matches. apply _. Defined.

#[global] Instance targets_token_dec tokenAddress rule :
  Decision (targets_token tokenAddress rule).
Proof. unfold targets_token. apply _. Defined.

(** *** Proof support *)

(** Unfold one run of the editor down to lookups in the store. *)
Ltac editor_steps :=
  unfold allowlistToken, denylistToken, copy_method_rules, bind,
    read_method_rule_array, alloc_method_rule_array, read_method_rule,
    read_rule_array, alloc_rule_array, set_rules, push, ret.

(** *** Sample object graphs *)

(** One policy with a single [eth_sendTransaction] method rule whose rule
    array holds [rs]: array 1 holds object 1, whose rules are array 1. *)
Definition single_method_store (rs : list PrivyRule) : Store :=
  {| method_rule_arrays := {[ 1%positive := [1%positive] ]};
     method_rule_objs :=
       {[ 1%positive := {| obj_method := "eth_sendTransaction"; obj_rules := 1%positive |} ]};
     rule_arrays := {[ 1%positive := rs ]} |}.

(** A policy whose [method_rules] array is empty. *)
Definition no_method_store : Store :=
  {| method_rule_arrays := {[ 1%positive := [] ]};
     method_rule_objs := ∅;
     rule_arrays := ∅ |}.

Definition sample_policy : PolicyObj :=
  {| existing_id := "policy-1";
     existing_version := "1.0";
     existing_name := "DefaultPolicy";
     existing_chain_type := "ethereum";
     existing_method_rules := Some 1%positive;
     existing_default_action := DENY |}.

End Editor.

(* ===================================================================== *)
(** ** Configuration validation and the action handlers *)
(* ===================================================================== *)

Module Actions.

(** A thrown value.  Every throw site of the plugin and of its clients
    raises an [Error] object, which carries a string message.  What the
    handlers do with a thrown value of another kind is in [Boundary]. *)
Record JsError : Type := Error { message : string }.

(** A client operation that reaches the Privy API, with the credentials
    its service was created with.  The HTTP exchanges inside a client
    operation are not split further: [UpdatePolicy] stands for the
    read-edit-write sequence of [updatePolicy]. *)
Inductive RemoteCall : Type :=
| GetPolicy (name privyAppID privyAppSecret policyId : string)
| CreatePolicy (name privyAppID privyAppSecret : string)
| UpdatePolicy (name privyAppID privyAppSecret policyId tokenName tokenAddress : string)
               (remove : bool)
| CreateWallet (privyAppID privyAppSecret : string) (request : PrivyCreateWalletRequest)
| UpdateWallet (privyAppID privyAppSecret walletId : string)
               (request : PrivyUpdateWalletRequest)
| GetWallets (privyAppID privyAppSecret : string)
| SendTransaction (privyAppID privyAppSecret : string) (request : PrivyTransactionRequest)
| SignTransaction (privyAppID privyAppSecret walletId msg : string).

Inductive Outcome (A : Type) : Type :=
| Returned (a : A)
| Thrown (e : JsError).
Arguments Returned {A} a.
Arguments Thrown {A} e.

(** An asynchronous computation: it returns or throws, and extends the
    log of remote calls made so far. *)
Definition Async (A : Type) : Type := list RemoteCall → Outcome A * list RemoteCall.

Definition ret {A} (a : A) : Async A := λ log, (Returned a, log).

Definition throw {A} (e : JsError) : Async A := λ log, (Thrown e, log).

Definition bind {A B} (m : Async A) (k : A → Async B) : Async B :=
  λ log, match m log with
         | (Returned a, log') => k a log'
         | (Thrown e, log') => (Thrown e, log')
         end.

(** [try { body } catch (error) { handler }] *)
Definition try_catch {A} (body : Async A) (handler : JsError → Async A) : Async A :=
  λ log, match body log with
         | (Returned a, log') => (Returned a, log')
         | (Thrown e, log') => handler e log'
         end.

(** One exchange with the remote service: the call is recorded and the
    service's answer is returned or thrown. *)
Definition perform {A} (c : RemoteCall) (answer : Outcome A) : Async A :=
  λ log, (answer, log ++ [c]).

Declare Scope async_scope.
Delimit Scope async_scope with async.
Notation "'await' x <- m ; k" := (bind m (λ x, k))
  (at level 10, x name, m at level 100, k at level 200) : async_scope.
Local Open Scope async_scope.

(** *** environment.ts *)

(** The host runtime, as far as the plugin uses it: the settings lookup. *)
Record IAgentRuntime : Type := {
  getSetting : string → option string
}.

Record PrivyConfig : Type := {
  PRIVY_APP_ID : string;
  PRIVY_APP_SECRET : string;
  PRIVY_MONAD_RPC_URL : option string;
  PRIVY_MONAD_CHAIN_ID : option string
}.

(** [if (!x) throw ...] is written as a match on [Js.nonempty x], which
    also yields the string used afterwards.  The [catch] block logs to
    the console (not modelled) and throws the error again. *)
Definition validatePrivyConfig (runtime : IAgentRuntime) : Async PrivyConfig :=
  try_catch
    (let app_id := getSetting runtime "PRIVY_APP_ID" in
     let app_secret := getSetting runtime "PRIVY_APP_SECRET" in
     match Js.nonempty app_id with
     | None => throw (Error "Privy App ID is required")
     | Some app_id =>
         match Js.nonempty app_secret with
         | None => throw (Error "Privy App Secret is required")
         | Some app_secret =>
             let monad_rpc_url := Js.nonempty (getSetting runtime "PRIVY_MONAD_RPC_URL") in
             let monad_chain_id := Js.nonempty (getSetting runtime "PRIVY_MONAD_CHAIN_ID") in
             ret {| PRIVY_APP_ID := app_id;
                    PRIVY_APP_SECRET := app_secret;
                    PRIVY_MONAD_RPC_URL := monad_rpc_url;
                    PRIVY_MONAD_CHAIN_ID := monad_chain_id |}
         end
     end)
    (λ error, throw error).

(** *** The two REST clients, as the handlers see them *)

(** The behaviour of the Privy API behind the clients: every operation
    answers with data or makes the client throw. *)
Record PrivyApi : Type := {
  api_createPolicy : string → string → string → Outcome PrivyPolicyResponse;
  api_updatePolicy :
    string → string → string → string → string → string → bool →
    Outcome PrivyPolicyResponse;
  api_getPolicy : string → string → string → string → Outcome PrivyPolicyResponse;
  api_createWallet :
    string → string → PrivyCreateWalletRequest → Outcome PrivyCreateWalletResponse;
  api_updateWallet :
    string → string → string → PrivyUpdateWalletRequest →
    Outcome PrivyCreateWalletResponse;
  api_getWallets : string → string → Outcome (list PrivyCreateWalletResponse);
  api_sendTransaction :
    string → string → PrivyTransactionRequest → Outcome PrivyTransactionResponse;
  api_signTransaction : string → string → string → string → Outcome PrivySignatureResponse
}.

Record PolicyService : Type := {
  createPolicy : Async PrivyPolicyResponse;
  updatePolicy : string → string → string → bool → Async PrivyPolicyResponse;
  getPolicy : string → Async PrivyPolicyResponse
}.

Record WalletService : Type := {
  createWallet : PrivyCreateWalletRequest → Async PrivyCreateWalletResponse;
  updateWallet : string → PrivyUpdateWalletRequest → Async PrivyCreateWalletResponse;
  getWallets : Async (list PrivyCreateWalletResponse);
  sendTransaction : PrivyTransactionRequest → Async PrivyTransactionResponse;
  signTransaction : string → string → Async PrivySignatureResponse
}.

(** The clients check their identifiers before any request is made. *)
Definition policyService (api : PrivyApi) (name privyAppID privyAppSecret : string)
    (authRequestKey : option string) : PolicyService :=
  {| createPolicy :=
       perform (CreatePolicy name privyAppID privyAppSecret)
               (api_createPolicy api name privyAppID privyAppSecret);
     updatePolicy := λ policyId tokenName tokenAddress remove,
       if String.eqb policyId "" then throw (Error "Invalid parameters")
       else perform
              (UpdatePolicy name privyAppID privyAppSecret policyId tokenName tokenAddress remove)
              (api_updatePolicy api name privyAppID privyAppSecret
                                policyId tokenName tokenAddress remove);
     getPolicy := λ policyId,
       if String.eqb policyId "" then throw (Error "Invalid parameters")
       else perform (GetPolicy name privyAppID privyAppSecret policyId)
                    (api_getPolicy api name privyAppID privyAppSecret policyId) |}.

Definition walletService (api : PrivyApi) (privyAppID privyAppSecret : string)
    (authRequestKey : option string) : WalletService :=
  {| createWallet := λ request,
       perform (CreateWallet privyAppID privyAppSecret request)
               (api_createWallet api privyAppID privyAppSecret request);
     updateWallet := λ walletId request,
       if String.eqb walletId "" then throw (Error "Wallet ID is required")
       else perform (UpdateWallet privyAppID privyAppSecret walletId request)
                    (api_updateWallet api privyAppID privyAppSecret walletId request);
     getWallets :=
       perform (GetWallets privyAppID privyAppSecret)
               (api_getWallets api privyAppID privyAppSecret);
     sendTransaction := λ request,
       if String.eqb (tx_wallet_id request) "" then throw (Error "Wallet ID is required")
       else perform (SendTransaction privyAppID privyAppSecret request)
                    (api_sendTransaction api privyAppID privyAppSecret request);
     signTransaction := λ walletId msg,
       if String.eqb walletId "" then throw (Error "Wallet ID is required")
       else perform (SignTransaction privyAppID privyAppSecret walletId msg)
                    (api_signTransaction api privyAppID privyAppSecret walletId msg) |}.

(** *** index.ts *)

Record PrivyPluginConfig : Type := {
  defaultPolicyName : option string;
  defaultPolicyId : option string
}.

Definition DEFAULT_CONFIG : PrivyPluginConfig :=
  {| defaultPolicyName := Some "DefaultPolicy";
     defaultPolicyId := Some "" |}.

(** [{ ...DEFAULT_CONFIG, ...config }] *)
Definition spread_config (defaults config : PrivyPluginConfig) : PrivyPluginConfig :=
  {| defaultPolicyName :=
       match defaultPolicyName config with
       | Some n => Some n
       | None => defaultPolicyName defaults
       end;
     defaultPolicyId :=
       match defaultPolicyId config with
       | Some i => Some i
       | None => defaultPolicyId defaults
       end |}.

(** The option bag of an action, with the types the handlers cast its
    entries to.  An absent entry is [None]. *)
Record ActionOptions : Type := {
  opt_policyId : option string;
  opt_name : option string;
  opt_tokenName : option string;
  opt_tokenAddress : option string;
  opt_remove : option bool;
  opt_chainType : option string;
  opt_walletId : option string;
  opt_policyIds : option (list string);
  opt_to : option string;
  opt_value : option string;
  opt_data : option string;
  opt_message : option string
}.

Inductive ActionData : Type :=
| PolicyData (policy : PrivyPolicyResponse)
| WalletData (wallet : PrivyCreateWalletResponse)
| WalletsData (wallets : list PrivyCreateWalletResponse)
| TransactionData (transaction : PrivyTransactionResponse)
| SignatureData (sig : PrivySignatureResponse).

Record ActionResult : Type := {
  success : bool;
  response : string;
  data : option ActionData
}.

Definition failure (text : string) : ActionResult :=
  {| success := false; response := text; data := None |}.

(** The eight actions of the plugin. *)
Inductive ActionName : Type :=
| PRIVY_GET_POLICY
| PRIVY_CREATE_POLICY
| PRIVY_UPDATE_POLICY
| PRIVY_CREATE_WALLET
| PRIVY_UPDATE_WALLET
| PRIVY_GET_WALLETS
| PRIVY_SEND_TRANSACTION
| PRIVY_SIGN_TRANSACTION.

Section Handlers.

(** The Privy API behind the clients, and [this.config]. *)
Variable api : PrivyApi.
Variable config : PrivyPluginConfig.

(** The handlers receive [(runtime, message, state, options)]; none of
    them reads [message] or [state]. *)
Variable runtime : IAgentRuntime.
Variable options : option ActionOptions.

(** [validate] is the same function in every action. *)
Definition validate : Async bool :=
  try_catch
    (await _c <- validatePrivyConfig runtime; ret true)
    (λ _, ret false).

(** [(options?.policyId as string) || this.config.defaultPolicyId] *)
Definition policyId_option : option string :=
  Js.or_opt (options ≫= opt_policyId) (defaultPolicyId config).

(** [(options?.name as string) || this.config.defaultPolicyName || "DefaultPolicy"] *)
Definition name_option : string :=
  Js.or_else (Js.or_opt (options ≫= opt_name) (defaultPolicyName config)) "DefaultPolicy".

(** **** PRIVY_GET_POLICY *)

Definition ruleNames (policyData : PrivyPolicyResponse) : list string :=
  List.flat_map
    (λ methodRule,
       List.map (λ rule, Js.replace "Allowlist " "" (rule_name rule)) (rules methodRule))
    (method_rules policyData).

Definition get_policy_try : Async ActionResult :=
  await cfg <- validatePrivyConfig runtime;
  let privyAppID := PRIVY_APP_ID cfg in
  let privyAppSecret := PRIVY_APP_SECRET cfg in
  let name := name_option in
  match Js.nonempty policyId_option with
  | None =>
      ret (failure "Policy ID is required. Please specify a policy ID or set a default policy ID in the configuration.")
  | Some policyId =>
      let ps := policyService api name privyAppID privyAppSecret None in
      await policyData <- getPolicy ps policyId;
      let responseText :=
        "These are tokens that are allowed for transactions: " +:+
        Js.join ", " (ruleNames policyData) +:+
        ". If the token you want to use is not on this list, you will need to request it to be added." in
      ret {| success := true;
             response := responseText;
             data := Some (PolicyData policyData) |}
  end.

Definition get_policy_catch (error : JsError) : Async ActionResult :=
  ret (failure ("Error retrieving policy: " +:+ message error)).

(** **** PRIVY_CREATE_POLICY *)

Definition create_policy_try : Async ActionResult :=
  await cfg <- validatePrivyConfig runtime;
  let privyAppID := PRIVY_APP_ID cfg in
  let privyAppSecret := PRIVY_APP_SECRET cfg in
  let name := name_option in
  let ps := policyService api name privyAppID privyAppSecret None in
  await policyData <- createPolicy ps;
  ret {| success := true;
         response :=
           "Successfully created a new compliance policy with ID: " +:+
           policy_id policyData +:+
           ". You can now add approved tokens to this policy.";
         data := Some (PolicyData policyData) |}.

Definition create_policy_catch (error : JsError) : Async ActionResult :=
  ret (failure ("Error creating policy: " +:+ message error)).

(** **** PRIVY_UPDATE_POLICY *)

Definition update_policy_try : Async ActionResult :=
  await cfg <- validatePrivyConfig runtime;
  let privyAppID := PRIVY_APP_ID cfg in
  let privyAppSecret := PRIVY_APP_SECRET cfg in
  let name := name_option in
  let tokenName := options ≫= opt_tokenName in
  let tokenAddress := options ≫= opt_tokenAddress in
  let remove :=
    match options ≫= opt_remove with
    | Some true => true
    | _ => false
    end in
  match Js.nonempty policyId_option with
  | None =>
      ret (failure "Policy ID is required. Please specify a policy ID or set a default policy ID in the configuration.")
  | Some policyId =>
      match Js.nonempty tokenName, Js.nonempty tokenAddress with
      | Some tokenName, Some tokenAddress =>
          let ps := policyService api name privyAppID privyAppSecret None in
          await policyData <- updatePolicy ps policyId tokenName tokenAddress remove;
          let action := if remove then "removed from" else "added to" in
          ret {| success := true;
                 response :=
                   "Successfully " +:+ action +:+ " the policy: token " +:+ tokenName +:+
                   " (" +:+ tokenAddress +:+ ") has been " +:+ action +:+ " the allowlist.";
                 data := Some (PolicyData policyData) |}
      | _, _ =>
          ret (failure "Token name and address are required for policy updates.")
      end
  end.

Definition update_policy_catch (error : JsError) : Async ActionResult :=
  ret (failure ("Error updating policy: " +:+ message error)).

(** **** PRIVY_CREATE_WALLET *)

(** [(options?.chainType as string)?.toLowerCase() || "ethereum"] *)
Definition chainType_option : string :=
  Js.or_else (Js.toLowerCase <$> (options ≫= opt_chainType)) "ethereum".

Definition create_wallet_try : Async ActionResult :=
  await cfg <- validatePrivyConfig runtime;
  let privyAppID := PRIVY_APP_ID cfg in
  let privyAppSecret := PRIVY_APP_SECRET cfg in
  let chainType := chainType_option in
  if negb (Js.array_includes ["ethereum"; "solana"; "monad"] chainType)
  then ret (failure "Invalid chain type. Supported chain types are: ethereum, solana, monad.")
  else
    let apiChainType := if String.eqb chainType "monad" then "ethereum" else chainType in
    let policyId := policyId_option in
    let walletRequest :=
      {| chain_type := apiChainType;
         policy_ids :=
           match Js.nonempty policyId with
           | Some policyId => Some [policyId]
           | None => None
           end |} in
    let ws := walletService api privyAppID privyAppSecret None in
    await walletData <- createWallet ws walletRequest;
    let responseText :=
      if String.eqb chainType "monad"
      then "Successfully created a new Monad wallet with address: " +:+
           address walletData +:+
           ". This wallet is compatible with the Monad blockchain."
      else "Successfully created a new wallet with address: " +:+ address walletData in
    ret {| success := true;
           response := responseText;
           data := Some (WalletData walletData) |}.

Definition create_wallet_catch (error : JsError) : Async ActionResult :=
  ret (failure ("Error creating wallet: " +:+ message error)).

(** **** PRIVY_UPDATE_WALLET *)

Definition update_wallet_try : Async ActionResult :=
  await cfg <- validatePrivyConfig runtime;
  let privyAppID := PRIVY_APP_ID cfg in
  let privyAppSecret := PRIVY_APP_SECRET cfg in
  let walletId := options ≫= opt_walletId in
  let policyIds := options ≫= opt_policyIds in
  match Js.nonempty walletId with
  | None => ret (failure "Wallet ID is required to update a wallet.")
  | Some walletId =>
      match policyIds with
      | None | Some [] =>
          ret (failure "At least one policy ID is required for wallet updates.")
      | Some policyIds =>
          let request := {| update_policy_ids := Some policyIds |} in
          let ws := walletService api privyAppID privyAppSecret None in
          await walletData <- updateWallet ws walletId request;
          ret {| success := true;
                 response := "Successfully updated wallet policies. The wallet now follows the specified compliance policies.";
                 data := Some (WalletData walletData) |}
      end
  end.

Definition update_wallet_catch (error : JsError) : Async ActionResult :=
  ret (failure ("Error updating wallet: " +:+ message error)).

(** **** PRIVY_GET_WALLETS *)

Definition wallet_line (wallet : PrivyCreateWalletResponse) : string :=
  "Wallet " +:+ wallet_id wallet +:+ ": " +:+ address wallet +:+
  " (" +:+ wallet_chain_type wallet +:+ ")".

Definition get_wallets_try : Async ActionResult :=
  await cfg <- validatePrivyConfig runtime;
  let privyAppID := PRIVY_APP_ID cfg in
  let privyAppSecret := PRIVY_APP_SECRET cfg in
  let ws := walletService api privyAppID privyAppSecret None in
  await walletsData <- getWallets ws;
  match walletsData with
  | [] =>
      ret {| success := true;
             response := "No wallets found. You can create a new wallet with the PRIVY_CREATE_WALLET action.";
             data := None |}
  | _ =>
      let walletList := Js.join Js.newline (List.map wallet_line walletsData) in
      ret {| success := true;
             response := "Here are your available wallets:" +:+ Js.newline +:+ walletList;
             data := Some (WalletsData walletsData) |}
  end.

Definition get_wallets_catch (error : JsError) : Async ActionResult :=
  ret (failure ("Error retrieving wallets: " +:+ message error)).

(** **** PRIVY_SEND_TRANSACTION *)

Definition send_transaction_try : Async ActionResult :=
  await cfg <- validatePrivyConfig runtime;
  let privyAppID := PRIVY_APP_ID cfg in
  let privyAppSecret := PRIVY_APP_SECRET cfg in
  let walletId := options ≫= opt_walletId in
  let to := options ≫= opt_to in
  let value := options ≫= opt_value in
  let data := options ≫= opt_data in
  match Js.nonempty walletId, Js.nonempty to, Js.nonempty value with
  | Some walletId, Some to, Some value =>
      let request :=
        {| tx_wallet_id := walletId; tx_to := to; tx_value := value; tx_data := data |} in
      let ws := walletService api privyAppID privyAppSecret None in
      await txData <- sendTransaction ws request;
      ret {| success := true;
             response := "Transaction sent successfully! Transaction hash: " +:+ hash txData;
             data := Some (TransactionData txData) |}
  | _, _, _ =>
      ret (failure "Wallet ID, recipient address, and value are required for transactions.")
  end.

(** [error.message.includes("policy") || error.message.includes("denied")] *)
Definition is_policy_violation (error : JsError) : bool :=
  Js.includes "policy" (message error) || Js.includes "denied" (message error).

Definition send_transaction_catch (error : JsError) : Async ActionResult :=
  if is_policy_violation error
  then ret (failure ("Transaction failed due to policy restrictions: " +:+ message error +:+
                     ". This transaction may involve tokens or addresses that aren't allowed by your wallet's compliance policies."))
  else ret (failure ("Error sending transaction: " +:+ message error)).

(** **** PRIVY_SIGN_TRANSACTION *)

Definition sign_transaction_try : Async ActionResult :=
  await cfg <- validatePrivyConfig runtime;
  let privyAppID := PRIVY_APP_ID cfg in
  let privyAppSecret := PRIVY_APP_SECRET cfg in
  let walletId := options ≫= opt_walletId in
  let msg := options ≫= opt_message in
  match Js.nonempty walletId, Js.nonempty msg with
  | Some walletId, Some msg =>
      let ws := walletService api privyAppID privyAppSecret None in
      await signData <- signTransaction ws walletId msg;
      ret {| success := true;
             response := "Transaction signed successfully! Signature: " +:+ signature signData;
             data := Some (SignatureData signData) |}
  | _, _ => ret (failure "Wallet ID and message are required for signing.")
  end.

Definition sign_transaction_catch (error : JsError) : Async ActionResult :=
  if is_policy_violation error
  then ret (failure ("Signing failed due to policy restrictions: " +:+ message error +:+
                     ". This operation may not be allowed by your wallet's compliance policies."))
  else ret (failure ("Error signing transaction: " +:+ message error)).

(** **** The action table *)

(** The [try] block and the [catch] block of each handler. *)
Definition try_block (a : ActionName) : Async ActionResult :=
  match a with
  | PRIVY_GET_POLICY => get_policy_try
  | PRIVY_CREATE_POLICY => create_policy_try
  | PRIVY_UPDATE_POLICY => update_policy_try
  | PRIVY_CREATE_WALLET => create_wallet_try
  | PRIVY_UPDATE_WALLET => update_wallet_try
  | PRIVY_GET_WALLETS => get_wallets_try
  | PRIVY_SEND_TRANSACTION => send_transaction_try
  | PRIVY_SIGN_TRANSACTION => sign_transaction_try
  end.

Definition catch_block (a : ActionName) : JsError → Async ActionResult :=
  match a with
  | PRIVY_GET_POLICY => get_policy_catch
  | PRIVY_CREATE_POLICY => create_policy_catch
  | PRIVY_UPDATE_POLICY => update_policy_catch
  | PRIVY_CREATE_WALLET => create_wallet_catch
  | PRIVY_UPDATE_WALLET => update_wallet_catch
  | PRIVY_GET_WALLETS => get_wallets_catch
  | PRIVY_SEND_TRANSACTION => send_transaction_catch
  | PRIVY_SIGN_TRANSACTION => sign_transaction_catch
  end.

Definition handler (a : ActionName) : Async ActionResult :=
  try_catch (try_block a) (catch_block a).

End Handlers.

Definition action_names : list ActionName :=
  [ PRIVY_GET_POLICY; PRIVY_CREATE_POLICY; PRIVY_UPDATE_POLICY; PRIVY_CREATE_WALLET;
    PRIVY_UPDATE_WALLET; PRIVY_GET_WALLETS; PRIVY_SEND_TRANSACTION; PRIVY_SIGN_TRANSACTION ].

Definition name_of (a : ActionName) : string :=
  match a with
  | PRIVY_GET_POLICY => "PRIVY_GET_POLICY"
  | PRIVY_CREATE_POLICY => "PRIVY_CREATE_POLICY"
  | PRIVY_UPDATE_POLICY => "PRIVY_UPDATE_POLICY"
  | PRIVY_CREATE_WALLET => "PRIVY_CREATE_WALLET"
  | PRIVY_UPDATE_WALLET => "PRIVY_UPDATE_WALLET"
  | PRIVY_GET_WALLETS => "PRIVY_GET_WALLETS"
  | PRIVY_SEND_TRANSACTION => "PRIVY_SEND_TRANSACTION"
  | PRIVY_SIGN_TRANSACTION => "PRIVY_SIGN_TRANSACTION"
  end.

(** An entry of [PrivyPlugin.actions] (descriptions, similes and
    examples are documentation for the host and are left out). *)
Record Action : Type := {
  action_name : string;
  action_validate : IAgentRuntime → Async bool;
  action_handler : IAgentRuntime → option ActionOptions → Async ActionResult
}.

Record PrivyPlugin : Type := {
  plugin_name : string;
  plugin_config : PrivyPluginConfig;
  actions : list Action
}.

(** [new PrivyPlugin(config)], running against the Privy API [api]. *)
Definition new_PrivyPlugin (api : PrivyApi) (config : PrivyPluginConfig) : PrivyPlugin :=
  let this_config := spread_config DEFAULT_CONFIG config in
  {| plugin_name := "privy";
     plugin_config := this_config;
     actions :=
       List.map (λ a, {| action_name := name_of a;
                         action_validate := validate;
                         action_handler := λ runtime options,
                           handler api this_config runtime options a |})
                action_names |}.

(** [export default new PrivyPlugin()] *)
Definition default_plugin (api : PrivyApi) : PrivyPlugin :=
  new_PrivyPlugin api {| defaultPolicyName := None; defaultPolicyId := None |}.

(** *** The specification's vocabulary *)

(** A setting that is absent or empty. *)
Definition absent_or_empty (v : option string) : Prop :=
  v = None ∨ v = Some "".

(** The handler-level validation error: an option the action requires is
    missing. *)
Definition missing_required (config : PrivyPluginConfig)
    (options : option ActionOptions) (a : ActionName) : Prop :=
  match a with
  | PRIVY_GET_POLICY => absent_or_empty (policyId_option config options)
  | PRIVY_UPDATE_POLICY =>
      absent_or_empty (policyId_option config options) ∨
      absent_or_empty (options ≫= opt_tokenName) ∨
      absent_or_empty (options ≫= opt_tokenAddress)
  | PRIVY_UPDATE_WALLET =>
      absent_or_empty (options ≫= opt_walletId) ∨
      options ≫= opt_policyIds = None ∨ options ≫= opt_policyIds = Some []
  | PRIVY_SEND_TRANSACTION =>
      absent_or_empty (options ≫= opt_walletId) ∨
      absent_or_empty (options ≫= opt_to) ∨
      absent_or_empty (options ≫= opt_value)
  | PRIVY_SIGN_TRANSACTION =>
      absent_or_empty (options ≫= opt_walletId) ∨
      absent_or_empty (options ≫= opt_message)
  | PRIVY_CREATE_POLICY | PRIVY_CREATE_WALLET | PRIVY_GET_WALLETS => False
  end.

(** A response text that speaks of compliance-policy restrictions. *)
Definition mentions_policy_restrictions (text : string) : bool :=
  Js.includes "due to policy restrictions" text &&
  Js.includes "compliance policies" text.

(** *** Sample collaborators *)

Definition settings_of (app_id app_secret : option string) : IAgentRuntime :=
  {| getSetting := λ key,
       if String.eqb key "PRIVY_APP_ID" then app_id
       else if String.eqb key "PRIVY_APP_SECRET" then app_secret
       else None |}.

(** Both required settings present, no optional one. *)
Definition sample_runtime : IAgentRuntime :=
  settings_of (Some "app-id") (Some "app-secret").

(** The application id present, the secret missing. *)
Definition runtime_without_secret : IAgentRuntime :=
  settings_of (Some "app-id") None.

Definition sample_wallet : PrivyCreateWalletResponse :=
  {| wallet_id := "wallet-1";
     address := "0xE3070d3e4309afA3bC9a6b057685743CF42da77C";
     wallet_chain_type := "ethereum";
     wallet_policy_ids := [] |}.

Definition sample_policy_response : PrivyPolicyResponse :=
  {| policy_id := "policy-1";
     version := "1.0";
     policy_name := "DefaultPolicy";
     policy_chain_type := "ethereum";
     method_rules := [ {| method := "eth_sendTransaction"; rules := [] |} ];
     default_action := DENY |}.

(** A service that creates wallets and policies, does not find the
    policy asked for, and refuses transactions and signatures on policy
    grounds. *)
Definition sample_api : PrivyApi :=
  {| api_createPolicy := λ _ _ _, Returned sample_policy_response;
     api_updatePolicy := λ _ _ _ _ _ _ _, Returned sample_policy_response;
     api_getPolicy := λ _ _ _ _, Thrown (Error "policy not found");
     api_createWallet := λ _ _ _, Returned sample_wallet;
     api_updateWallet := λ _ _ _ _, Returned sample_wallet;
     api_getWallets := λ _ _, Returned [sample_wallet];
     api_sendTransaction := λ _ _ _, Thrown (Error "Transaction denied");
     api_signTransaction := λ _ _ _ _, Thrown (Error "Violates policy") |}.

Definition no_options : ActionOptions :=
  {| opt_policyId := None; opt_name := None; opt_tokenName := None;
     opt_tokenAddress := None; opt_remove := None; opt_chainType := None;
     opt_walletId := None; opt_policyIds := None; opt_to := None;
     opt_value := None; opt_data := None; opt_message := None |}.

Definition chain_options (chainType : string) : ActionOptions :=
  {| opt_policyId := None; opt_name := None; opt_tokenName := None;
     opt_tokenAddress := None; opt_remove := None; opt_chainType := Some chainType;
     opt_walletId := None; opt_policyIds := None; opt_to := None;
     opt_value := None; opt_data := None; opt_message := None |}.

Definition policy_options (policyId : string) : ActionOptions :=
  {| opt_policyId := Some policyId; opt_name := None; opt_tokenName := None;
     opt_tokenAddress := None; opt_remove := None; opt_chainType := None;
     opt_walletId := None; opt_policyIds := None; opt_to := None;
     opt_value := None; opt_data := None; opt_message := None |}.

Definition transfer_options : ActionOptions :=
  {| opt_policyId := None; opt_name := None; opt_tokenName := None;
     opt_tokenAddress := None; opt_remove := None; opt_chainType := None;
     opt_walletId := Some "wallet-1"; opt_policyIds := None;
     opt_to := Some "0xE3070d3e4309afA3bC9a6b057685743CF42da77C";
     opt_value := Some "1000"; opt_data := None; opt_message := Some "Hello, world!" |}.

End Actions.

(* ===================================================================== *)
(** ** Parsed policies as object graphs *)
(* ===================================================================== *)

Module Tree.
Import Editor.

(** The first method rule of the array at [a] shares neither its object
    nor its rule array with another method rule of that array.  This
    holds of every policy obtained from [response.json()]. *)
Definition first_unshared (σ : Store) (a : loc) : Prop :=
  ∀ first rest o,
    method_rule_arrays σ !! a = Some (first :: rest) →
    method_rule_objs σ !! first = Some o →
    (first ∉ rest) ∧
    (∀ l o', l ∈ rest → method_rule_objs σ !! l = Some o' → obj_rules o' ≠ obj_rules o).

(** The objects [JSON.parse] builds for an array of method rules: the
    i-th method rule and its rule array are placed at location [l + i]. *)
Fixpoint load_locs (l : loc) (mrs : list PrivyMethodRule) : list loc :=
  match mrs with
  | [] => []
  | _ :: rest => l :: load_locs (Pos.succ l) rest
  end.

Fixpoint load_objs (l : loc) (mrs : list PrivyMethodRule) : gmap loc MethodRuleObj :=
  match mrs with
  | [] => ∅
  | mr :: rest =>
      <[l := {| obj_method := method mr; obj_rules := l |}]> (load_objs (Pos.succ l) rest)
  end.

Fixpoint load_arrays (l : loc) (mrs : list PrivyMethodRule) : gmap loc (list PrivyRule) :=
  match mrs with
  | [] => ∅
  | mr :: rest => <[l := rules mr]> (load_arrays (Pos.succ l) rest)
  end.

(** The store holding a parsed policy and nothing else; its
    [method_rules] array is at location 1. *)
Definition load_store (policy : PrivyPolicyResponse) : Store :=
  {| method_rule_arrays := {[ 1%positive := load_locs 1%positive (method_rules policy) ]};
     method_rule_objs := load_objs 1%positive (method_rules policy);
     rule_arrays := load_arrays 1%positive (method_rules policy) |}.

Definition load_policy (policy : PrivyPolicyResponse) : PolicyObj :=
  {| existing_id := policy_id policy;
     existing_version := version policy;
     existing_name := policy_name policy;
     existing_chain_type := policy_chain_type policy;
     existing_method_rules := Some 1%positive;
     existing_default_action := default_action policy |}.

(** A parsed policy with two method rules; the first one is not
    [eth_sendTransaction]. *)
Definition two_method_policy : PrivyPolicyResponse :=
  {| policy_id := "policy-2";
     version := "1.0";
     policy_name := "TwoMethods";
     policy_chain_type := "ethereum";
     method_rules :=
       [ {| method := "personal_sign"; rules := [newRule "USDT" "0xAAA"] |};
         {| method := "eth_sendTransaction"; rules := [newRule "DAI" "0xDDD"] |} ];
     default_action := DENY |}.

End Tree.

(* ===================================================================== *)
(** ** The REST clients over [fetch] *)
(* ===================================================================== *)

Module Http.
Import Actions.

Inductive HttpMethod : Type := GET | POST | PATCH.

(** The policy template of [createPolicy]. *)
Record PrivyCreatePolicy : Type := {
  create_version : string;
  create_name : string;
  create_chain_type : string;
  create_method_rules : list PrivyMethodRule;
  create_default_action : PolicyAction
}.

(** What [JSON.stringify] writes for a [PrivyUpdatePolicy]: absent
    properties are left out. *)
Record UpdateBody : Type := {
  body_name : option string;
  body_method_rules : option (list PrivyMethodRule);
  body_default_action : option PolicyAction
}.

(** The value given to [JSON.stringify] for the request body. *)
Inductive RequestBody : Type :=
| CreatePolicyBody (policy : PrivyCreatePolicy)
| UpdatePolicyBody (updatedPolicy : UpdateBody)
| CreateWalletBody (request : PrivyCreateWalletRequest)
| UpdateWalletBody (request : PrivyUpdateWalletRequest)
| TransactionBody (to value : string) (data : option string)
| SignBody (msg : string).

Record Request : Type := {
  url : string;
  http_method : HttpMethod;
  headers : gmap string string;
  body : option RequestBody
}.

(** What comes back for a request.  [fetch] may reject; otherwise the
    response is [ok] or not, and [response.json()] gives the parsed body
    or rejects.  The body of an [ok] response is taken to have the
    declared type, as the clients do (they return it unchecked). *)
Inductive Reply (T : Type) : Type :=
| FetchFailed (e : JsError)
| Ok (data : Outcome T)
| NotOk (statusText : string) (error : Outcome JSON).
Arguments FetchFailed {T} e.
Arguments Ok {T} data.
Arguments NotOk {T} statusText error.

(** The remote service: its reply to a request, given the requests
    sent before. *)
Record Network : Type := {
  policy_reply : list Request → Request → Reply PrivyPolicyResponse;
  wallet_reply : list Request → Request → Reply PrivyCreateWalletResponse;
  wallets_reply : list Request → Request → Reply (list PrivyCreateWalletResponse);
  transaction_reply : list Request → Request → Reply PrivyTransactionResponse;
  signature_reply : list Request → Request → Reply PrivySignatureResponse
}.

(** A client computation: it returns or throws and extends the list of
    requests sent.  [None] is a run of the policy editor that meets a
    dangling reference, which does not happen. *)
Definition Client (A : Type) : Type :=
  list Request → option (Outcome A * list Request).

Definition ret {A} (a : A) : Client A := λ log, Some (Returned a, log).

Definition throw {A} (e : JsError) : Client A := λ log, Some (Thrown e, log).

Definition bind {A B} (m : Client A) (k : A → Client B) : Client B :=
  λ log, match m log with
         | Some (Returned a, log') => k a log'
         | Some (Thrown e, log') => Some (Thrown e, log')
         | None => None
         end.

Definition try_catch {A} (block : Client A) (handler : JsError → Client A) : Client A :=
  λ log, match block log with
         | Some (Returned a, log') => Some (Returned a, log')
         | Some (Thrown e, log') => handler e log'
         | None => None
         end.

Definition lift {A} (o : option A) : Client A :=
  λ log, match o with
         | Some a => Some (Returned a, log)
         | None => None
         end.

Declare Scope client_scope.
Delimit Scope client_scope with client.
Notation "'await' x <- m ; k" := (bind m (λ x, k))
  (at level 10, x name, m at level 100, k at level 200) : client_scope.
Local Open Scope client_scope.

(** *** Reading an error body *)

(** [obj[key]] for a parsed JSON object: the last entry with that key. *)
Fixpoint get_property (key : string) (fields : list (string * JSON)) : option JSON :=
  match fields with
  | [] => None
  | (k, v) :: rest =>
      match get_property key rest with
      | Some v' => Some v'
      | None => if String.eqb k key then Some v else None
      end
  end.

(** [error?.message]: undefined for [null], and for every value that is
    not an object with that property. *)
Definition optional_message (error : JSON) : option JSON :=
  match error with
  | JObject fields => get_property "message" fields
  | _ => None
  end.

Definition truthy_json (v : JSON) : bool :=
  match v with
  | JNull => false
  | JBool b => b
  | JNumber n => negb (Z.eqb n 0)
  | JString s => negb (String.eqb s "")
  | JArray _ => true
  | JObject _ => true
  end.

Section Clients.

(** Two functions of the JavaScript runtime: the Base64 text of a string
    ([Buffer.from(s).toString('base64')]) and the conversion of a value
    that is not a string to a string. *)
Variable base64 : string → string.
Variable ToString : JSON → string.

(** The message of [new Error(v)]. *)
Definition error_message_of (v : JSON) : string :=
  match v with
  | JString s => s
  | _ => ToString v
  end.

(** The message of [new Error(error?.message || response.statusText)]. *)
Definition error_text (error : JSON) (statusText : string) : string :=
  match optional_message error with
  | Some v => if truthy_json v then error_message_of v else statusText
  | None => statusText
  end.

(** The exchange every client function makes inside its [try] block:
    [response = await fetch(url, init);
     if (!response.ok) { error = await response.json();
                         throw new Error(error?.message || response.statusText) }
     return await response.json()] *)
Definition send {T} (reply : list Request → Request → Reply T)
    (request : Request) : Client T :=
  λ log,
    let log' := log ++ [request] in
    match reply log request with
    | FetchFailed e => Some (Thrown e, log')
    | NotOk statusText (Thrown e) => Some (Thrown e, log')
    | NotOk statusText (Returned error) =>
        Some (Thrown (Error (error_text error statusText)), log')
    | Ok data => Some (data, log')
    end.

(** [catch (error) { console.error(...); throw error }] *)
Definition rethrow {A} (error : JsError) : Client A := throw error.

Variable net : Network.

Definition POLICIES_URL : string := "https://api.privy.io/v1/policies".
Definition WALLETS_URL : string := "https://api.privy.io/v1/wallets".

Definition basic_headers (privyAppID privyAppSecret : string) : gmap string string :=
  {[ "Content-Type" := "application/json";
     "privy-app-id" := privyAppID;
     "Authorization" := "Basic " +:+ base64 (privyAppID +:+ ":" +:+ privyAppSecret) ]}.

(** [if (authRequestKey) headers['privy-authorization-signature'] = authRequestKey] *)
Definition with_signature (authRequestKey : option string)
    (headers : gmap string string) : gmap string string :=
  match Js.nonempty authRequestKey with
  | Some key => <["privy-authorization-signature" := key]> headers
  | None => headers
  end.

(** *** services/policies.ts *)

(** The editor run on the policy just read, and the body that
    [JSON.stringify(updatedPolicy)] writes. *)
Definition stringify (σ : Editor.Store) (updatedPolicy : Editor.PrivyUpdatePolicy) :
    option UpdateBody :=
  match Editor.updated_method_rules updatedPolicy with
  | Some a =>
      mrs ← Editor.snapshot σ a;
      Some {| body_name := Editor.name updatedPolicy;
              body_method_rules := Some mrs;
              body_default_action := Editor.updated_default_action updatedPolicy |}
  | None =>
      Some {| body_name := Editor.name updatedPolicy;
              body_method_rules := None;
              body_default_action := Editor.updated_default_action updatedPolicy |}
  end.

Definition edit (remove : bool) (existingPolicy : PrivyPolicyResponse)
    (tokenName tokenAddress : string) : option UpdateBody :=
  let p := Tree.load_policy existingPolicy in
  let σ := Tree.load_store existingPolicy in
  '(updatedPolicy, σ') ←
    (if remove then Editor.denylistToken p tokenName tokenAddress σ
     else Editor.allowlistToken p tokenName tokenAddress σ);
  stringify σ' updatedPolicy.

Section PolicyService.

Variables (name privyAppID privyAppSecret : string) (authRequestKey : option string).

Definition createPolicy : Client PrivyPolicyResponse :=
  let headers := with_signature authRequestKey (basic_headers privyAppID privyAppSecret) in
  let policy :=
    {| create_version := "1.0";
       create_name := name;
       create_chain_type := "ethereum";
       create_method_rules := [ {| method := "eth_sendTransaction"; rules := [] |} ];
       create_default_action := DENY |} in
  try_catch
    (send (policy_reply net)
      {| url := POLICIES_URL;
         http_method := POST;
         headers := headers;
         body := Some (CreatePolicyBody policy) |})
    rethrow.

Definition getPolicy (policyId : string) : Client PrivyPolicyResponse :=
  if String.eqb policyId "" then throw (Error "Invalid parameters")
  else
    let headers := with_signature authRequestKey (basic_headers privyAppID privyAppSecret) in
    try_catch
      (send (policy_reply net)
        {| url := POLICIES_URL +:+ "/" +:+ policyId;
           http_method := GET;
           headers := headers;
           body := None |})
      rethrow.

Definition updatePolicy (policyId tokenName tokenAddress : string) (remove : bool) :
    Client PrivyPolicyResponse :=
  if String.eqb policyId "" then throw (Error "Invalid parameters")
  else
    let headers := basic_headers privyAppID privyAppSecret in
    try_catch
      (let url := POLICIES_URL +:+ "/" +:+ policyId in
       await existingPolicy <- getPolicy policyId;
       await updatedPolicy <- lift (edit remove existingPolicy tokenName tokenAddress);
       send (policy_reply net)
         {| url := url;
            http_method := PATCH;
            headers := headers;
            body := Some (UpdatePolicyBody updatedPolicy) |})
      rethrow.

End PolicyService.

(** *** services/wallets.ts *)

Section WalletService.

Variables (privyAppID privyAppSecret : string) (authRequestKey : option string).

Definition createWallet (request : PrivyCreateWalletRequest) :
    Client PrivyCreateWalletResponse :=
  let headers := with_signature authRequestKey (basic_headers privyAppID privyAppSecret) in
  try_catch
    (send (wallet_reply net)
      {| url := WALLETS_URL;
         http_method := POST;
         headers := headers;
         body := Some (CreateWalletBody request) |})
    rethrow.

Definition updateWallet (walletId : string) (request : PrivyUpdateWalletRequest) :
    Client PrivyCreateWalletResponse :=
  if String.eqb walletId "" then throw (Error "Wallet ID is required")
  else
    let headers := basic_headers privyAppID privyAppSecret in
    try_catch
      (send (wallet_reply net)
        {| url := WALLETS_URL +:+ "/" +:+ walletId;
           http_method := PATCH;
           headers := headers;
           body := Some (UpdateWalletBody request) |})
      rethrow.

Definition getWallets : Client (list PrivyCreateWalletResponse) :=
  let headers := basic_headers privyAppID privyAppSecret in
  try_catch
    (send (wallets_reply net)
      {| url := WALLETS_URL;
         http_method := GET;
         headers := headers;
         body := None |})
    rethrow.

Definition sendTransaction (request : PrivyTransactionRequest) :
    Client PrivyTransactionResponse :=
  if String.eqb (tx_wallet_id request) "" then throw (Error "Wallet ID is required")
  else
    let headers := basic_headers privyAppID privyAppSecret in
    try_catch
      (send (transaction_reply net)
        {| url := WALLETS_URL +:+ "/" +:+ tx_wallet_id request +:+ "/transactions";
           http_method := POST;
           headers := headers;
           body := Some (TransactionBody (tx_to request) (tx_value request) (tx_data request)) |})
      rethrow.

Definition signTransaction (walletId msg : string) : Client PrivySignatureResponse :=
  if String.eqb walletId "" then throw (Error "Wallet ID is required")
  else
    let headers := basic_headers privyAppID privyAppSecret in
    try_catch
      (send (signature_reply net)
        {| url := WALLETS_URL +:+ "/" +:+ walletId +:+ "/sign";
           http_method := POST;
           headers := headers;
           body := Some (SignBody msg) |})
      rethrow.

End WalletService.

End Clients.

(** *** Sample collaborators *)

(** A request-independent Base64 stand-in and string conversion for the
    examples. *)
Definition sample_base64 (s : string) : string := "base64(" +:+ s +:+ ")".
Definition sample_ToString (v : JSON) : string := "[object Object]".

(** A service that knows one policy and rejects transactions with a
    JSON error body. *)
Definition sample_network : Network :=
  {| policy_reply := λ _ _, Ok (Returned Tree.two_method_policy);
     wallet_reply := λ _ _, Ok (Returned sample_wallet);
     wallets_reply := λ _ _, NotOk "Unauthorized" (Thrown (Error "Unexpected token < in JSON"));
     transaction_reply := λ _ _,
       NotOk "Bad Request"
         (Returned (JObject [("message", JString "Transaction denied by policy")]));
     signature_reply := λ _ _, NotOk "Forbidden" (Returned (JObject [("code", JNumber 403)])) |}.

(** A service whose policy lookup fails. *)
Definition failing_network : Network :=
  {| policy_reply := λ _ _, NotOk "Not Found" (Returned JNull);
     wallet_reply := λ _ _, FetchFailed (Error "fetch failed");
     wallets_reply := λ _ _, FetchFailed (Error "fetch failed");
     transaction_reply := λ _ _, FetchFailed (Error "fetch failed");
     signature_reply := λ _ _, FetchFailed (Error "fetch failed") |}.

End Http.

(* ===================================================================== *)
(** ** Vocabulary for the calls a handler makes *)
(* ===================================================================== *)

Module Calls.
Import Actions.

(** The application id and secret a call is made with. *)
Definition call_credentials (c : RemoteCall) : string * string :=
  match c with
  | GetPolicy _ privyAppID privyAppSecret _
  | CreatePolicy _ privyAppID privyAppSecret
  | UpdatePolicy _ privyAppID privyAppSecret _ _ _ _
  | CreateWallet privyAppID privyAppSecret _
  | UpdateWallet privyAppID privyAppSecret _ _
  | GetWallets privyAppID privyAppSecret
  | SendTransaction privyAppID privyAppSecret _
  | SignTransaction privyAppID privyAppSecret _ _ => (privyAppID, privyAppSecret)
  end.

(** The client operation that belongs to an action. *)
Definition issued_by (c : RemoteCall) (a : ActionName) : Prop :=
  match c, a with
  | GetPolicy _ _ _ _, PRIVY_GET_POLICY
  | CreatePolicy _ _ _, PRIVY_CREATE_POLICY
  | UpdatePolicy _ _ _ _ _ _ _, PRIVY_UPDATE_POLICY
  | CreateWallet _ _ _, PRIVY_CREATE_WALLET
  | UpdateWallet _ _ _ _, PRIVY_UPDATE_WALLET
  | GetWallets _ _, PRIVY_GET_WALLETS
  | SendTransaction _ _ _, PRIVY_SEND_TRANSACTION
  | SignTransaction _ _ _ _, PRIVY_SIGN_TRANSACTION => True
  | _, _ => False
  end.

(** A call whose required fields are all filled in. *)
Definition complete_call (c : RemoteCall) : Prop :=
  match c with
  | GetPolicy name _ _ policyId => name ≠ "" ∧ policyId ≠ ""
  | CreatePolicy name _ _ => name ≠ ""
  | UpdatePolicy name _ _ policyId tokenName tokenAddress _ =>
      name ≠ "" ∧ policyId ≠ "" ∧ tokenName ≠ "" ∧ tokenAddress ≠ ""
  | CreateWallet _ _ request =>
      (chain_type request = "ethereum" ∨ chain_type request = "solana") ∧
      (policy_ids request = None ∨
       ∃ policyId, policyId ≠ "" ∧ policy_ids request = Some [policyId])
  | UpdateWallet _ _ walletId request =>
      walletId ≠ "" ∧
      ∃ policyId policyIds, update_policy_ids request = Some (policyId :: policyIds)
  | GetWallets _ _ => True
  | SendTransaction _ _ request =>
      tx_wallet_id request ≠ "" ∧ tx_to request ≠ "" ∧ tx_value request ≠ ""
  | SignTransaction _ _ walletId msg => walletId ≠ "" ∧ msg ≠ ""
  end.

(** One call has been added to the log: the operation of the action,
    made with the configured credentials and with every required field
    filled in. *)
Definition one_call (runtime : IAgentRuntime) (a : ActionName)
    (log log' : list RemoteCall) : Prop :=
  ∃ c, log' = log ++ [c] ∧ issued_by c a ∧ complete_call c ∧
       Js.nonempty (getSetting runtime "PRIVY_APP_ID") = Some (call_credentials c).1 ∧
       Js.nonempty (getSetting runtime "PRIVY_APP_SECRET") = Some (call_credentials c).2.

(** Proof support: the branch of a [try] block that returns or throws
    before any call. *)
Ltac no_call :=
  first [ left; split; [reflexivity | intros ? [= <-]; reflexivity]
        | left; split; [reflexivity | intros ? [=]] ].

(** Options for a policy update. *)
Definition update_options (policyId tokenName tokenAddress : string)
    (remove : option bool) : ActionOptions :=
  {| opt_policyId := Some policyId; opt_name := None; opt_tokenName := Some tokenName;
     opt_tokenAddress := Some tokenAddress; opt_remove := remove; opt_chainType := None;
     opt_walletId := None; opt_policyIds := None; opt_to := None;
     opt_value := None; opt_data := None; opt_message := None |}.

End Calls.

(* ===================================================================== *)
(** ** The action boundary for thrown values of any kind *)
(* ===================================================================== *)

(** JavaScript can throw any value, and a [catch (error: any)] block
    receives whatever was thrown.  [Actions] follows the throw sites of
    the repository, which all raise [Error] objects, and takes the
    settings lookup as a function that returns.  This module has the same
    handlers with collaborators (the runtime's [getSetting], the clients)
    that may throw any value, and with the property reads of the [catch]
    blocks as JavaScript evaluates them. *)
Module Boundary.
Import Actions.

(** A thrown value, by what the [catch] blocks of index.ts read from it,
    which is [error.message].  A value whose [message] property is
    defined and is not a string is not represented. *)
Inductive Caught : Type :=
| AnError (e : JsError)
    (* [message] is a string, as in every [Error] object *)
| NoMessage
    (* [message] is undefined: a thrown string, number, boolean, or an
       object without that property *)
| Nullish.
    (* [null] or [undefined] *)

Inductive Completion (A : Type) : Type :=
| Normal (a : A)
| Abrupt (v : Caught).
Arguments Normal {A} a.
Arguments Abrupt {A} v.

(** An asynchronous computation: it returns or throws, and extends the
    log of remote calls made so far. *)
Definition Async (A : Type) : Type := list RemoteCall → Completion A * list RemoteCall.

Definition ret {A} (a : A) : Async A := λ log, (Normal a, log).

Definition throw {A} (v : Caught) : Async A := λ log, (Abrupt v, log).

Definition bind {A B} (m : Async A) (k : A → Async B) : Async B :=
  λ log, match m log with
         | (Normal a, log') => k a log'
         | (Abrupt v, log') => (Abrupt v, log')
         end.

(** [try { body } catch (error) { handler }] *)
Definition try_catch {A} (body : Async A) (handler : Caught → Async A) : Async A :=
  λ log, match body log with
         | (Normal a, log') => (Normal a, log')
         | (Abrupt v, log') => handler v log'
         end.

(** One exchange with the remote service: the call is recorded and the
    client returns the service's answer or throws. *)
Definition perform {A} (c : RemoteCall) (answer : Completion A) : Async A :=
  λ log, (answer, log ++ [c]).

Declare Scope boundary_scope.
Delimit Scope boundary_scope with boundary.
Notation "'await' x <- m ; k" := (bind m (λ x, k))
  (at level 10, x name, m at level 100, k at level 200) : boundary_scope.
Local Open Scope boundary_scope.

(** *** environment.ts *)

(** The host runtime: a settings lookup that returns or throws. *)
Record IAgentRuntime : Type := {
  getSetting : string → Completion (option string)
}.

(** [runtime.getSetting(key)] *)
Definition lookup (runtime : IAgentRuntime) (key : string) : Async (option string) :=
  λ log, (getSetting runtime key, log).

(** The two required settings are read first, then tested; the optional
    ones are read after both tests.  The [catch] block logs the value it
    caught, without reading a property of it, and throws it again. *)
Definition validatePrivyConfig (runtime : IAgentRuntime) : Async PrivyConfig :=
  try_catch
    (await app_id <- lookup runtime "PRIVY_APP_ID";
     await app_secret <- lookup runtime "PRIVY_APP_SECRET";
     match Js.nonempty app_id with
     | None => throw (AnError (Error "Privy App ID is required"))
     | Some app_id =>
         match Js.nonempty app_secret with
         | None => throw (AnError (Error "Privy App Secret is required"))
         | Some app_secret =>
             await monad_rpc_url <- lookup runtime "PRIVY_MONAD_RPC_URL";
             await monad_chain_id <- lookup runtime "PRIVY_MONAD_CHAIN_ID";
             ret {| PRIVY_APP_ID := app_id;
                    PRIVY_APP_SECRET := app_secret;
                    PRIVY_MONAD_RPC_URL := Js.nonempty monad_rpc_url;
                    PRIVY_MONAD_CHAIN_ID := Js.nonempty monad_chain_id |}
         end
     end)
    (λ error, throw error).

(** *** The two REST clients, as the handlers see them *)

(** The behaviour of the Privy API behind the clients: every operation
    answers with data or makes the client throw.  A client throws again
    what it caught, after reading its [message] for the console. *)
Record PrivyApi : Type := {
  api_createPolicy : string → string → string → Completion PrivyPolicyResponse;
  api_updatePolicy :
    string → string → string → string → string → string → bool →
    Completion PrivyPolicyResponse;
  api_getPolicy : string → string → string → string → Completion PrivyPolicyResponse;
  api_createWallet :
    string → string → PrivyCreateWalletRequest → Completion PrivyCreateWalletResponse;
  api_updateWallet :
    string → string → string → PrivyUpdateWalletRequest →
    Completion PrivyCreateWalletResponse;
  api_getWallets : string → string → Completion (list PrivyCreateWalletResponse);
  api_sendTransaction :
    string → string → PrivyTransactionRequest → Completion PrivyTransactionResponse;
  api_signTransaction :
    string → string → string → string → Completion PrivySignatureResponse
}.

Record PolicyService : Type := {
  createPolicy : Async PrivyPolicyResponse;
  updatePolicy : string → string → string → bool → Async PrivyPolicyResponse;
  getPolicy : string → Async PrivyPolicyResponse
}.

Record WalletService : Type := {
  createWallet : PrivyCreateWalletRequest → Async PrivyCreateWalletResponse;
  updateWallet : string → PrivyUpdateWalletRequest → Async PrivyCreateWalletResponse;
  getWallets : Async (list PrivyCreateWalletResponse);
  sendTransaction : PrivyTransactionRequest → Async PrivyTransactionResponse;
  signTransaction : string → string → Async PrivySignatureResponse
}.

(** The clients check their identifiers before any request is made. *)
Definition policyService (api : PrivyApi) (name privyAppID privyAppSecret : string)
    (authRequestKey : option string) : PolicyService :=
  {| createPolicy :=
       perform (CreatePolicy name privyAppID privyAppSecret)
               (api_createPolicy api name privyAppID privyAppSecret);
     updatePolicy := λ policyId tokenName tokenAddress remove,
       if String.eqb policyId "" then throw (AnError (Error "Invalid parameters"))
       else perform
              (UpdatePolicy name privyAppID privyAppSecret policyId tokenName tokenAddress remove)
              (api_updatePolicy api name privyAppID privyAppSecret
                                policyId tokenName tokenAddress remove);
     getPolicy := λ policyId,
       if String.eqb policyId "" then throw (AnError (Error "Invalid parameters"))
       else perform (GetPolicy name privyAppID privyAppSecret policyId)
                    (api_getPolicy api name privyAppID privyAppSecret policyId) |}.

Definition walletService (api : PrivyApi) (privyAppID privyAppSecret : string)
    (authRequestKey : option string) : WalletService :=
  {| createWallet := λ request,
       perform (CreateWallet privyAppID privyAppSecret request)
               (api_createWallet api privyAppID privyAppSecret request);
     updateWallet := λ walletId request,
       if String.eqb walletId "" then throw (AnError (Error "Wallet ID is required"))
       else perform (UpdateWallet privyAppID privyAppSecret walletId request)
                    (api_updateWallet api privyAppID privyAppSecret walletId request);
     getWallets :=
       perform (GetWallets privyAppID privyAppSecret)
               (api_getWallets api privyAppID privyAppSecret);
     sendTransaction := λ request,
       if String.eqb (tx_wallet_id request) ""
       then throw (AnError (Error "Wallet ID is required"))
       else perform (SendTransaction privyAppID privyAppSecret request)
                    (api_sendTransaction api privyAppID privyAppSecret request);
     signTransaction := λ walletId msg,
       if String.eqb walletId "" then throw (AnError (Error "Wallet ID is required"))
       else perform (SignTransaction privyAppID privyAppSecret walletId msg)
                    (api_signTransaction api privyAppID privyAppSecret walletId msg) |}.

(** *** index.ts *)

(** The promise of a handler once settled: resolved with a value, or
    rejected with the TypeError that reading [property] of [undefined]
    or [null] raises, the one error a [catch] block of index.ts can
    raise itself. *)
Inductive Settled (A : Type) : Type :=
| Resolved (a : A)
| Rejected (property : string).
Arguments Resolved {A} a.
Arguments Rejected {A} property.

#[global] Instance settled_bind : MBind Settled :=
  λ A B k m, match m with
             | Resolved a => k a
             | Rejected property => Rejected property
             end.

(** [error.message]: the message, or [None] for [undefined]. *)
Definition get_message (error : Caught) : Settled (option string) :=
  match error with
  | AnError e => Resolved (Some (message e))
  | NoMessage => Resolved None
  | Nullish => Rejected "message"
  end.

(** [msg.includes(needle)] *)
Definition message_includes (needle : string) (msg : option string) : Settled bool :=
  match msg with
  | Some text => Resolved (Js.includes needle text)
  | None => Rejected "includes"
  end.

(** [${msg}] inside a template literal *)
Definition to_text (msg : option string) : string :=
  match msg with
  | Some text => text
  | None => "undefined"
  end.

Section Handlers.

(** The Privy API behind the clients, and [this.config]. *)
Variable api : PrivyApi.
Variable config : PrivyPluginConfig.

(** The handlers receive [(runtime, message, state, options)]; none of
    them reads [message] or [state]. *)
Variable runtime : IAgentRuntime.
Variable options : option ActionOptions.

(** The [try] blocks are those of [Actions], over the collaborators of
    this module; the [catch] blocks first log the value they caught,
    without reading a property of it. *)

(** **** PRIVY_GET_POLICY *)

Definition get_policy_try : Async ActionResult :=
  await cfg <- validatePrivyConfig runtime;
  let privyAppID := PRIVY_APP_ID cfg in
  let privyAppSecret := PRIVY_APP_SECRET cfg in
  let name := (name_option config options) in
  match Js.nonempty (policyId_option config options) with
  | None =>
      ret (failure "Policy ID is required. Please specify a policy ID or set a default policy ID in the configuration.")
  | Some policyId =>
      let ps := policyService api name privyAppID privyAppSecret None in
      await policyData <- getPolicy ps policyId;
      let responseText :=
        "These are tokens that are allowed for transactions: " +:+
        Js.join ", " (ruleNames policyData) +:+
        ". If the token you want to use is not on this list, you will need to request it to be added." in
      ret {| success := true;
             response := responseText;
             data := Some (PolicyData policyData) |}
  end.

Definition get_policy_catch (error : Caught) : Settled ActionResult :=
  msg ← get_message error;
  Resolved (failure ("Error retrieving policy: " +:+ to_text msg)).

(** **** PRIVY_CREATE_POLICY *)

Definition create_policy_try : Async ActionResult :=
  await cfg <- validatePrivyConfig runtime;
  let privyAppID := PRIVY_APP_ID cfg in
  let privyAppSecret := PRIVY_APP_SECRET cfg in
  let name := (name_option config options) in
  let ps := policyService api name privyAppID privyAppSecret None in
  await policyData <- createPolicy ps;
  ret {| success := true;
         response :=
           "Successfully created a new compliance policy with ID: " +:+
           policy_id policyData +:+
           ". You can now add approved tokens to this policy.";
         data := Some (PolicyData policyData) |}.

Definition create_policy_catch (error : Caught) : Settled ActionResult :=
  msg ← get_message error;
  Resolved (failure ("Error creating policy: " +:+ to_text msg)).

(** **** PRIVY_UPDATE_POLICY *)

Definition update_policy_try : Async ActionResult :=
  await cfg <- validatePrivyConfig runtime;
  let privyAppID := PRIVY_APP_ID cfg in
  let privyAppSecret := PRIVY_APP_SECRET cfg in
  let name := (name_option config options) in
  let tokenName := options ≫= opt_tokenName in
  let tokenAddress := options ≫= opt_tokenAddress in
  let remove :=
    match options ≫= opt_remove with
    | Some true => true
    | _ => false
    end in
  match Js.nonempty (policyId_option config options) with
  | None =>
      ret (failure "Policy ID is required. Please specify a policy ID or set a default policy ID in the configuration.")
  | Some policyId =>
      match Js.nonempty tokenName, Js.nonempty tokenAddress with
      | Some tokenName, Some tokenAddress =>
          let ps := policyService api name privyAppID privyAppSecret None in
          await policyData <- updatePolicy ps policyId tokenName tokenAddress remove;
          let action := if remove then "removed from" else "added to" in
          ret {| success := true;
                 response :=
                   "Successfully " +:+ action +:+ " the policy: token " +:+ tokenName +:+
                   " (" +:+ tokenAddress +:+ ") has been " +:+ action +:+ " the allowlist.";
                 data := Some (PolicyData policyData) |}
      | _, _ =>
          ret (failure "Token name and address are required for policy updates.")
      end
  end.

Definition update_policy_catch (error : Caught) : Settled ActionResult :=
  msg ← get_message error;
  Resolved (failure ("Error updating policy: " +:+ to_text msg)).

(** **** PRIVY_CREATE_WALLET *)

Definition create_wallet_try : Async ActionResult :=
  await cfg <- validatePrivyConfig runtime;
  let privyAppID := PRIVY_APP_ID cfg in
  let privyAppSecret := PRIVY_APP_SECRET cfg in
  let chainType := (chainType_option options) in
  if negb (Js.array_includes ["ethereum"; "solana"; "monad"] chainType)
  then ret (failure "Invalid chain type. Supported chain types are: ethereum, solana, monad.")
  else
    let apiChainType := if String.eqb chainType "monad" then "ethereum" else chainType in
    let policyId := (policyId_option config options) in
    let walletRequest :=
      {| chain_type := apiChainType;
         policy_ids :=
           match Js.nonempty policyId with
           | Some policyId => Some [policyId]
           | None => None
           end |} in
    let ws := walletService api privyAppID privyAppSecret None in
    await walletData <- createWallet ws walletRequest;
    let responseText :=
      if String.eqb chainType "monad"
      then "Successfully created a new Monad wallet with address: " +:+
           address walletData +:+
           ". This wallet is compatible with the Monad blockchain."
      else "Successfully created a new wallet with address: " +:+ address walletData in
    ret {| success := true;
           response := responseText;
           data := Some (WalletData walletData) |}.

Definition create_wallet_catch (error : Caught) : Settled ActionResult :=
  msg ← get_message error;
  Resolved (failure ("Error creating wallet: " +:+ to_text msg)).

(** **** PRIVY_UPDATE_WALLET *)

Definition update_wallet_try : Async ActionResult :=
  await cfg <- validatePrivyConfig runtime;
  let privyAppID := PRIVY_APP_ID cfg in
  let privyAppSecret := PRIVY_APP_SECRET cfg in
  let walletId := options ≫= opt_walletId in
  let policyIds := options ≫= opt_policyIds in
  match Js.nonempty walletId with
  | None => ret (failure "Wallet ID is required to update a wallet.")
  | Some walletId =>
      match policyIds with
      | None | Some [] =>
          ret (failure "At least one policy ID is required for wallet updates.")
      | Some policyIds =>
          let request := {| update_policy_ids := Some policyIds |} in
          let ws := walletService api privyAppID privyAppSecret None in
          await walletData <- updateWallet ws walletId request;
          ret {| success := true;
                 response := "Successfully updated wallet policies. The wallet now follows the specified compliance policies.";
                 data := Some (WalletData walletData) |}
      end
  end.

Definition update_wallet_catch (error : Caught) : Settled ActionResult :=
  msg ← get_message error;
  Resolved (failure ("Error updating wallet: " +:+ to_text msg)).

(** **** PRIVY_GET_WALLETS *)

Definition get_wallets_try : Async ActionResult :=
  await cfg <- validatePrivyConfig runtime;
  let privyAppID := PRIVY_APP_ID cfg in
  let privyAppSecret := PRIVY_APP_SECRET cfg in
  let ws := walletService api privyAppID privyAppSecret None in
  await walletsData <- getWallets ws;
  match walletsData with
  | [] =>
      ret {| success := true;
             response := "No wallets found. You can create a new wallet with the PRIVY_CREATE_WALLET action.";
             data := None |}
  | _ =>
      let walletList := Js.join Js.newline (List.map wallet_line walletsData) in
      ret {| success := true;
             response := "Here are your available wallets:" +:+ Js.newline +:+ walletList;
             data := Some (WalletsData walletsData) |}
  end.

Definition get_wallets_catch (error : Caught) : Settled ActionResult :=
  msg ← get_message error;
  Resolved (failure ("Error retrieving wallets: " +:+ to_text msg)).

(** **** PRIVY_SEND_TRANSACTION *)

Definition send_transaction_try : Async ActionResult :=
  await cfg <- validatePrivyConfig runtime;
  let privyAppID := PRIVY_APP_ID cfg in
  let privyAppSecret := PRIVY_APP_SECRET cfg in
  let walletId := options ≫= opt_walletId in
  let to := options ≫= opt_to in
  let value := options ≫= opt_value in
  let data := options ≫= opt_data in
  match Js.nonempty walletId, Js.nonempty to, Js.nonempty value with
  | Some walletId, Some to, Some value =>
      let request :=
        {| tx_wallet_id := walletId; tx_to := to; tx_value := value; tx_data := data |} in
      let ws := walletService api privyAppID privyAppSecret None in
      await txData <- sendTransaction ws request;
      ret {| success := true;
             response := "Transaction sent successfully! Transaction hash: " +:+ hash txData;
             data := Some (TransactionData txData) |}
  | _, _, _ =>
      ret (failure "Wallet ID, recipient address, and value are required for transactions.")
  end.

(** [error.message.includes("policy") || error.message.includes("denied")]:
    the second test is evaluated when the first is false. *)
Definition policy_violation (error : Caught) : Settled bool :=
  msg ← get_message error;
  about_policy ← message_includes "policy" msg;
  if about_policy : bool then Resolved true
  else msg ← get_message error; message_includes "denied" msg.

Definition send_transaction_catch (error : Caught) : Settled ActionResult :=
  violation ← policy_violation error;
  if violation : bool
  then msg ← get_message error;
       Resolved (failure ("Transaction failed due to policy restrictions: " +:+ to_text msg +:+
                          ". This transaction may involve tokens or addresses that aren't allowed by your wallet's compliance policies."))
  else msg ← get_message error;
       Resolved (failure ("Error sending transaction: " +:+ to_text msg)).

(** **** PRIVY_SIGN_TRANSACTION *)

Definition sign_transaction_try : Async ActionResult :=
  await cfg <- validatePrivyConfig runtime;
  let privyAppID := PRIVY_APP_ID cfg in
  let privyAppSecret := PRIVY_APP_SECRET cfg in
  let walletId := options ≫= opt_walletId in
  let msg := options ≫= opt_message in
  match Js.nonempty walletId, Js.nonempty msg with
  | Some walletId, Some msg =>
      let ws := walletService api privyAppID privyAppSecret None in
      await signData <- signTransaction ws walletId msg;
      ret {| success := true;
             response := "Transaction signed successfully! Signature: " +:+ signature signData;
             data := Some (SignatureData signData) |}
  | _, _ => ret (failure "Wallet ID and message are required for signing.")
  end.

Definition sign_transaction_catch (error : Caught) : Settled ActionResult :=
  violation ← policy_violation error;
  if violation : bool
  then msg ← get_message error;
       Resolved (failure ("Signing failed due to policy restrictions: " +:+ to_text msg +:+
                          ". This operation may not be allowed by your wallet's compliance policies."))
  else msg ← get_message error;
       Resolved (failure ("Error signing transaction: " +:+ to_text msg)).

(** **** The action table *)

Definition try_block (a : ActionName) : Async ActionResult :=
  match a with
  | PRIVY_GET_POLICY => get_policy_try
  | PRIVY_CREATE_POLICY => create_policy_try
  | PRIVY_UPDATE_POLICY => update_policy_try
  | PRIVY_CREATE_WALLET => create_wallet_try
  | PRIVY_UPDATE_WALLET => update_wallet_try
  | PRIVY_GET_WALLETS => get_wallets_try
  | PRIVY_SEND_TRANSACTION => send_transaction_try
  | PRIVY_SIGN_TRANSACTION => sign_transaction_try
  end.

Definition catch_block (a : ActionName) : Caught → Settled ActionResult :=
  match a with
  | PRIVY_GET_POLICY => get_policy_catch
  | PRIVY_CREATE_POLICY => create_policy_catch
  | PRIVY_UPDATE_POLICY => update_policy_catch
  | PRIVY_CREATE_WALLET => create_wallet_catch
  | PRIVY_UPDATE_WALLET => update_wallet_catch
  | PRIVY_GET_WALLETS => get_wallets_catch
  | PRIVY_SEND_TRANSACTION => send_transaction_catch
  | PRIVY_SIGN_TRANSACTION => sign_transaction_catch
  end.

(** [async (...) => { try { ... } catch (error: any) { ... } }]: what the
    [try] block returns resolves the promise; what it throws goes to the
    [catch] block, whose own completion settles the promise. *)
Definition handler (a : ActionName) : list RemoteCall → Settled ActionResult * list RemoteCall :=
  λ log, match try_block a log with
         | (Normal r, log') => (Resolved r, log')
         | (Abrupt error, log') => (catch_block a error, log')
         end.

End Handlers.

(** *** The specification's vocabulary *)



(** *** The collaborators of [Actions], seen from here *)

Definition of_outcome {A} (o : Outcome A) : Completion A :=
  match o with
  | Returned a => Normal a
  | Thrown e => Abrupt (AnError e)
  end.

Definition of_runtime (runtime : Actions.IAgentRuntime) : IAgentRuntime :=
  {| getSetting := λ key, Normal (Actions.getSetting runtime key) |}.

Definition of_api (api : Actions.PrivyApi) : PrivyApi :=
  {| api_createPolicy := λ name id secret,
       of_outcome (Actions.api_createPolicy api name id secret);
     api_updatePolicy := λ name id secret policyId tokenName tokenAddress remove,
       of_outcome (Actions.api_updatePolicy api name id secret
                     policyId tokenName tokenAddress remove);
     api_getPolicy := λ name id secret policyId,
       of_outcome (Actions.api_getPolicy api name id secret policyId);
     api_createWallet := λ id secret request,
       of_outcome (Actions.api_createWallet api id secret request);
     api_updateWallet := λ id secret walletId request,
       of_outcome (Actions.api_updateWallet api id secret walletId request);
     api_getWallets := λ id secret, of_outcome (Actions.api_getWallets api id secret);
     api_sendTransaction := λ id secret request,
       of_outcome (Actions.api_sendTransaction api id secret request);
     api_signTransaction := λ id secret walletId msg,
       of_outcome (Actions.api_signTransaction api id secret walletId msg) |}.

(** *** Sample collaborators *)


(** Clients that throw [v] whatever they are asked. *)
Definition throwing_api (v : Caught) : PrivyApi :=
  {| api_createPolicy := λ _ _ _, Abrupt v;
     api_updatePolicy := λ _ _ _ _ _ _ _, Abrupt v;
     api_getPolicy := λ _ _ _ _, Abrupt v;
     api_createWallet := λ _ _ _, Abrupt v;
     api_updateWallet := λ _ _ _ _, Abrupt v;
     api_getWallets := λ _ _, Abrupt v;
     api_sendTransaction := λ _ _ _, Abrupt v;
     api_signTransaction := λ _ _ _ _, Abrupt v |}.

End Boundary.

(* ===================================================================== *)
(** ** Properties of the policy rule editor *)
(* ===================================================================== *)

Module EditorProperties.
Import Editor.

Lemma first_rules_inv σ a rs :
  first_rules σ a = Some rs →
  ∃ first rest o,
    method_rule_arrays σ !! a = Some (first :: rest) ∧
    method_rule_objs σ !! first = Some o ∧
    rule_arrays σ !! obj_rules o = Some rs.
Proof.
  unfold first_rules, snapshot_method_rule. intros H.
  destruct (method_rule_arrays σ !! a) as [[|first rest]|] eqn:Ha; simplify_option_eq.
  eauto 10.
Qed.

Lemma first_rules_intro σ a first rest o rs :
  method_rule_arrays σ !! a = Some (first :: rest) →
  method_rule_objs σ !! first = Some o →
  rule_arrays σ !! obj_rules o = Some rs →
  first_rules σ a = Some rs.
Proof.
  unfold first_rules, snapshot_method_rule. intros -> Ho Hr. simpl.
  rewrite Ho. simpl. rewrite Hr. reflexivity.
Qed.

(** The array a copy allocates is not one of the store. *)
Lemma fresh_array_ne σ a elems :
  method_rule_arrays σ !! a = Some elems →
  fresh (dom (method_rule_arrays σ)) ≠ a.
Proof.
  intros Ha Heq. apply (is_fresh (dom (method_rule_arrays σ))).
  rewrite Heq. apply elem_of_dom. eauto.
Qed.

(** What a run of [allowlistToken] does to the store when the policy has
    a first method rule. *)
Lemma allowlistToken_run σ p tokenName tokenAddress a first rest o rs :
  existing_method_rules p = Some a →
  method_rule_arrays σ !! a = Some (first :: rest) →
  method_rule_objs σ !! first = Some o →
  rule_arrays σ !! obj_rules o = Some rs →
  allowlistToken p tokenName tokenAddress σ =
    Some ({| name := Some (existing_name p);
             updated_method_rules := Some (fresh (dom (method_rule_arrays σ)));
             updated_default_action := None |},
          {| method_rule_arrays :=
               <[fresh (dom (method_rule_arrays σ)) := first :: rest]> (method_rule_arrays σ);
             method_rule_objs := method_rule_objs σ;
             rule_arrays :=
               <[obj_rules o := rs ++ [newRule tokenName tokenAddress]]> (rule_arrays σ) |}).
Proof.
  intros Hp Ha Ho Hr.
  editor_steps. rewrite Hp, Ha. simpl. rewrite lookup_insert_eq. simpl.
  rewrite Ho. simpl. rewrite Hr. reflexivity.
Qed.

Lemma denylistToken_run σ p tokenName tokenAddress a first rest o rs :
  existing_method_rules p = Some a →
  method_rule_arrays σ !! a = Some (first :: rest) →
  method_rule_objs σ !! first = Some o →
  rule_arrays σ !! obj_rules o = Some rs →
  denylistToken p tokenName tokenAddress σ =
    Some ({| name := Some (existing_name p);
             updated_method_rules := Some (fresh (dom (method_rule_arrays σ)));
             updated_default_action := None |},
          {| method_rule_arrays :=
               <[fresh (dom (method_rule_arrays σ)) := first :: rest]> (method_rule_arrays σ);
             method_rule_objs :=
               <[first := {| obj_method := obj_method o;
                             obj_rules := fresh (dom (rule_arrays σ)) |}]>
                 (method_rule_objs σ);
             rule_arrays :=
               <[fresh (dom (rule_arrays σ)) := List.filter (keep_rule tokenAddress) rs]>
                 (rule_arrays σ) |}).
Proof.
  intros Hp Ha Ho Hr.
  editor_steps. rewrite Hp, Ha. simpl. rewrite lookup_insert_eq. simpl.
  rewrite Ho. simpl. rewrite Hr. simpl. rewrite Ho. reflexivity.
Qed.

(** A policy without method rules: nothing but the copy of the (empty)
    array is added to the store. *)
Lemma allowlistToken_run_empty σ p tokenName tokenAddress a :
  existing_method_rules p = Some a →
  method_rule_arrays σ !! a = Some [] →
  allowlistToken p tokenName tokenAddress σ =
    Some ({| name := Some (existing_name p);
             updated_method_rules := Some (fresh (dom (method_rule_arrays σ)));
             updated_default_action := None |},
          {| method_rule_arrays :=
               <[fresh (dom (method_rule_arrays σ)) := []]> (method_rule_arrays σ);
             method_rule_objs := method_rule_objs σ;
             rule_arrays := rule_arrays σ |}).
Proof.
  intros Hp Ha.
  editor_steps. rewrite Hp, Ha. simpl. rewrite lookup_insert_eq. reflexivity.
Qed.

Lemma denylistToken_run_empty σ p tokenName tokenAddress a :
  existing_method_rules p = Some a →
  method_rule_arrays σ !! a = Some [] →
  denylistToken p tokenName tokenAddress σ =
    Some ({| name := Some (existing_name p);
             updated_method_rules := Some (fresh (dom (method_rule_arrays σ)));
             updated_default_action := None |},
          {| method_rule_arrays :=
               <[fresh (dom (method_rule_arrays σ)) := []]> (method_rule_arrays σ);
             method_rule_objs := method_rule_objs σ;
             rule_arrays := rule_arrays σ |}).
Proof.
  intros Hp Ha.
  editor_steps. rewrite Hp, Ha. simpl. rewrite lookup_insert_eq. reflexivity.
Qed.

(** The boolean callbacks of [denylistToken] decide the specification's
    predicates. *)
Lemma matches_token_spec tokenAddress c :
  matches_token tokenAddress c = true ↔ condition_matches tokenAddress c.
Proof.
  unfold matches_token, condition_matches, value_is.
  rewrite !andb_true_iff, !String.eqb_eq.
  destruct (value c) as [s| |].
  - rewrite String.eqb_eq. split.
    + intros [[-> ->] ->]. done.
    + intros (-> & -> & [= ->]). done.
  - split; [intros [_ [=]] | intros (_ & _ & [=])].
  - split; [intros [_ [=]] | intros (_ & _ & [=])].
Qed.

Lemma keep_rule_spec tokenAddress rule :
  keep_rule tokenAddress rule = true ↔ ¬ targets_token tokenAddress rule.
Proof.
  unfold keep_rule, isTokenRule, targets_token.
  destruct (conditions rule) as [cs|]; simpl.
  - rewrite negb_true_iff, <- not_true_iff_false, existsb_exists, Exists_exists.
    apply not_iff_compat. split.
    + intros (c & Hin & Hc). exists c. split; [by apply list_elem_of_In|].
      by apply matches_token_spec.
    + intros (c & Hin & Hc). exists c. split; [by apply list_elem_of_In|].
      by apply matches_token_spec.
  - rewrite Exists_nil. naive_solver.
Qed.

Lemma filter_keep_rule tokenAddress rs :
  List.filter (keep_rule tokenAddress) rs =
  filter (λ rule, ¬ targets_token tokenAddress rule) rs.
Proof.
  induction rs as [|r rs IH]; [reflexivity|].
  simpl. rewrite filter_cons.
  destruct (keep_rule tokenAddress r) eqn:Hk; case_decide as Hd.
  - by rewrite IH.
  - by apply keep_rule_spec in Hk.
  - apply keep_rule_spec in Hd. congruence.
  - exact IH.
Qed.

(** The body [allowlistToken] returns when the policy has a first method
    rule. *)
Lemma allowlistToken_result σ p tokenName tokenAddress a rs :
  existing_method_rules p = Some a →
  first_rules σ a = Some rs →
  ∃ body σ' a',
    allowlistToken p tokenName tokenAddress σ = Some (body, σ') ∧
    name body = Some (existing_name p) ∧
    updated_method_rules body = Some a' ∧
    first_rules σ' a' = Some (rs ++ [newRule tokenName tokenAddress]).
Proof.
  intros Hp (first & rest & o & Ha & Ho & Hr)%first_rules_inv.
  eexists _, _, _. split; [by eapply allowlistToken_run|].
  split; [reflexivity|]. split; [reflexivity|].
  eapply first_rules_intro; simpl.
  - apply lookup_insert_eq.
  - exact Ho.
  - apply lookup_insert_eq.
Qed.

(** C1: on a policy with a first method rule, [allowlistToken] returns a
    body that carries the policy's name and whose first method rule has
    the rule list of the input's first method rule, in the same order,
    followed by one new rule: named "Allowlist " + tokenName, with the
    single condition [ethereum_transaction.to eq tokenAddress] and the
    action ALLOW. *)
Theorem allowlistToken_appends_rule σ p tokenName tokenAddress a rs :
  existing_method_rules p = Some a →
  first_rules σ a = Some rs →
  ∃ body σ' a',
    allowlistToken p tokenName tokenAddress σ = Some (body, σ') ∧
    name body = Some (existing_name p) ∧
    updated_method_rules body = Some a' ∧
    first_rules σ' a' =
      Some (rs ++ [ {| rule_name := "Allowlist " +:+ tokenName;
                       conditions := Some [ {| field_source := "ethereum_transaction";
                                               field := "to";
                                               abi := None;
                                               operator := "eq";
                                               value := VString tokenAddress |} ];
                       action := ALLOW |} ]).
Proof.
  intros Hp (first & rest & o & Ha & Ho & Hr)%first_rules_inv.
  exists {| name := Some (existing_name p);
            updated_method_rules := Some (fresh (dom (method_rule_arrays σ)));
            updated_default_action := None |}.
  eexists. exists (fresh (dom (method_rule_arrays σ))).
  split; [exact (allowlistToken_run σ p tokenName tokenAddress a first rest o rs
                   Hp Ha Ho Hr)|].
  split; [reflexivity|]. split; [reflexivity|].
  unfold first_rules, snapshot_method_rule. simpl.
  rewrite lookup_insert_eq. simpl. rewrite Ho. simpl.
  by rewrite lookup_insert_eq.
Qed.

Lemma allowlistToken_appends_rule_witness :
  ∃ body σ' a',
    allowlistToken sample_policy "USDC" "0xBBB"
      (single_method_store [newRule "USDT" "0xAAA"]) = Some (body, σ') ∧
    name body = Some "DefaultPolicy" ∧
    updated_method_rules body = Some a' ∧
    first_rules σ' a' =
      Some ([newRule "USDT" "0xAAA"] ++
            [ {| rule_name := "Allowlist USDC";
                 conditions := Some [ {| field_source := "ethereum_transaction";
                                         field := "to";
                                         abi := None;
                                         operator := "eq";
                                         value := VString "0xBBB" |} ];
                 action := ALLOW |} ]).
Proof.
  apply (allowlistToken_appends_rule
           (single_method_store [newRule "USDT" "0xAAA"]) sample_policy
           "USDC" "0xBBB" 1%positive [newRule "USDT" "0xAAA"]).
  - reflexivity.
  - vm_compute. reflexivity.
Defined.

(** C2: on a policy with a first method rule, [denylistToken] returns a
    body whose first method rule has the input's rule list without
    exactly the rules that have a condition with field_source
    "ethereum_transaction", field "to" and value tokenAddress; the other
    rules stay, in their order, and the token name plays no part. *)
Theorem denylistToken_removes_matching_rules σ p tokenName tokenAddress a rs :
  existing_method_rules p = Some a →
  first_rules σ a = Some rs →
  (∃ body σ' a',
     denylistToken p tokenName tokenAddress σ = Some (body, σ') ∧
     name body = Some (existing_name p) ∧
     updated_method_rules body = Some a' ∧
     first_rules σ' a' = Some (filter (λ rule, ¬ targets_token tokenAddress rule) rs)) ∧
  (∀ otherName,
     denylistToken p otherName tokenAddress σ = denylistToken p tokenName tokenAddress σ).
Proof.
  intros Hp (first & rest & o & Ha & Ho & Hr)%first_rules_inv. split.
  - eexists _, _, _. split; [by eapply denylistToken_run|].
    split; [reflexivity|]. split; [reflexivity|].
    rewrite <- filter_keep_rule.
    eapply first_rules_intro; simpl.
    + apply lookup_insert_eq.
    + apply lookup_insert_eq.
    + apply lookup_insert_eq.
  - intros otherName.
    by rewrite !(denylistToken_run σ p _ tokenAddress a first rest o rs).
Qed.

Lemma denylistToken_removes_matching_rules_witness :
  (∃ body σ' a',
     denylistToken sample_policy "anything" "0xAAA"
       (single_method_store [newRule "USDT" "0xAAA"; newRule "USDC" "0xBBB"]) =
       Some (body, σ') ∧
     name body = Some "DefaultPolicy" ∧
     updated_method_rules body = Some a' ∧
     first_rules σ' a' =
       Some (filter (λ rule, ¬ targets_token "0xAAA" rule)
                    [newRule "USDT" "0xAAA"; newRule "USDC" "0xBBB"])) ∧
  (∀ otherName,
     denylistToken sample_policy otherName "0xAAA"
       (single_method_store [newRule "USDT" "0xAAA"; newRule "USDC" "0xBBB"]) =
     denylistToken sample_policy "anything" "0xAAA"
       (single_method_store [newRule "USDT" "0xAAA"; newRule "USDC" "0xBBB"])).
Proof.
  apply (denylistToken_removes_matching_rules
           (single_method_store [newRule "USDT" "0xAAA"; newRule "USDC" "0xBBB"])
           sample_policy "anything" "0xAAA" 1%positive
           [newRule "USDT" "0xAAA"; newRule "USDC" "0xBBB"]).
  - reflexivity.
  - vm_compute. reflexivity.
Defined.

(** The filter of the witness above, evaluated: the USDT rule goes, the
    USDC rule stays. *)
Example denylist_filter_example :
  filter (λ rule, ¬ targets_token "0xAAA" rule)
         [newRule "USDT" "0xAAA"; newRule "USDC" "0xBBB"] = [newRule "USDC" "0xBBB"].
Proof. vm_compute. reflexivity. Qed.

(** Both operations write through to the policy they were given: the
    copy of [method_rules] is a new array of the same method-rule
    objects, so the first method rule of the input sees the change. *)
Lemma allowlistToken_changes_input σ p tokenName tokenAddress a rs :
  existing_method_rules p = Some a →
  first_rules σ a = Some rs →
  ∃ body σ',
    allowlistToken p tokenName tokenAddress σ = Some (body, σ') ∧
    first_rules σ' a = Some (rs ++ [newRule tokenName tokenAddress]).
Proof.
  intros Hp (first & rest & o & Ha & Ho & Hr)%first_rules_inv.
  eexists _, _. split; [by eapply allowlistToken_run|].
  eapply first_rules_intro; simpl.
  - rewrite lookup_insert_ne; [exact Ha|]. by eapply fresh_array_ne.
  - exact Ho.
  - apply lookup_insert_eq.
Qed.

Lemma denylistToken_changes_input σ p tokenName tokenAddress a rs :
  existing_method_rules p = Some a →
  first_rules σ a = Some rs →
  ∃ body σ',
    denylistToken p tokenName tokenAddress σ = Some (body, σ') ∧
    first_rules σ' a = Some (List.filter (keep_rule tokenAddress) rs).
Proof.
  intros Hp (first & rest & o & Ha & Ho & Hr)%first_rules_inv.
  eexists _, _. split; [by eapply denylistToken_run|].
  eapply first_rules_intro; simpl.
  - rewrite lookup_insert_ne; [exact Ha|]. by eapply fresh_array_ne.
  - apply lookup_insert_eq.
  - apply lookup_insert_eq.
Qed.

(** C3, evaluated: the policy at array 1 has one method rule.  After
    [allowlistToken] the rule list of that same input policy has grown
    by the new rule; after [denylistToken] the input policy has lost its
    USDT rule.  Neither call leaves its argument as it was. *)
Theorem editor_mutates_input_policy :
  (∃ body σ',
     allowlistToken sample_policy "USDC" "0xBBB" (single_method_store []) =
       Some (body, σ') ∧
     snapshot (single_method_store []) 1%positive =
       Some [ {| method := "eth_sendTransaction"; rules := [] |} ] ∧
     snapshot σ' 1%positive =
       Some [ {| method := "eth_sendTransaction";
                 rules := [newRule "USDC" "0xBBB"] |} ]) ∧
  (∃ body σ',
     denylistToken sample_policy "USDT" "0xAAA"
       (single_method_store [newRule "USDT" "0xAAA"]) = Some (body, σ') ∧
     snapshot (single_method_store [newRule "USDT" "0xAAA"]) 1%positive =
       Some [ {| method := "eth_sendTransaction";
                 rules := [newRule "USDT" "0xAAA"] |} ] ∧
     snapshot σ' 1%positive =
       Some [ {| method := "eth_sendTransaction"; rules := [] |} ]).
Proof.
  split; eexists _, _; (split; [vm_compute; reflexivity|]);
    split; vm_compute; reflexivity.
Qed.

(** C4: on a policy whose [method_rules] array is empty, both operations
    return a body with the policy's name and an empty [method_rules]
    array; no rule array is created, no object is changed and the run
    completes. *)
Theorem empty_policy_is_noop σ p tokenName tokenAddress a :
  existing_method_rules p = Some a →
  method_rule_arrays σ !! a = Some [] →
  (∃ body σ' a',
     allowlistToken p tokenName tokenAddress σ = Some (body, σ') ∧
     name body = Some (existing_name p) ∧
     updated_method_rules body = Some a' ∧
     snapshot σ' a' = Some [] ∧
     snapshot σ' a = Some [] ∧
     rule_arrays σ' = rule_arrays σ ∧
     method_rule_objs σ' = method_rule_objs σ) ∧
  (∃ body σ' a',
     denylistToken p tokenName tokenAddress σ = Some (body, σ') ∧
     name body = Some (existing_name p) ∧
     updated_method_rules body = Some a' ∧
     snapshot σ' a' = Some [] ∧
     snapshot σ' a = Some [] ∧
     rule_arrays σ' = rule_arrays σ ∧
     method_rule_objs σ' = method_rule_objs σ).
Proof.
  intros Hp Ha.
  assert (snapshot
            {| method_rule_arrays :=
                 <[fresh (dom (method_rule_arrays σ)) := []]> (method_rule_arrays σ);
               method_rule_objs := method_rule_objs σ;
               rule_arrays := rule_arrays σ |} a = Some []) as Hin.
  { unfold snapshot. simpl.
    rewrite lookup_insert_ne; [by rewrite Ha|]. by eapply fresh_array_ne. }
  split; eexists _, _, _.
  - split; [by eapply allowlistToken_run_empty|].
    repeat (split; [reflexivity|]).
    split; [|by repeat split].
    unfold snapshot. simpl. by rewrite lookup_insert_eq.
  - split; [by eapply denylistToken_run_empty|].
    repeat (split; [reflexivity|]).
    split; [|by repeat split].
    unfold snapshot. simpl. by rewrite lookup_insert_eq.
Qed.

Lemma empty_policy_is_noop_witness :
  (∃ body σ' a',
     allowlistToken sample_policy "USDC" "0xBBB" no_method_store = Some (body, σ') ∧
     name body = Some "DefaultPolicy" ∧
     updated_method_rules body = Some a' ∧
     snapshot σ' a' = Some [] ∧
     snapshot σ' 1%positive = Some [] ∧
     rule_arrays σ' = rule_arrays no_method_store ∧
     method_rule_objs σ' = method_rule_objs no_method_store) ∧
  (∃ body σ' a',
     denylistToken sample_policy "USDC" "0xBBB" no_method_store = Some (body, σ') ∧
     name body = Some "DefaultPolicy" ∧
     updated_method_rules body = Some a' ∧
     snapshot σ' a' = Some [] ∧
     snapshot σ' 1%positive = Some [] ∧
     rule_arrays σ' = rule_arrays no_method_store ∧
     method_rule_objs σ' = method_rule_objs no_method_store).
Proof.
  apply (empty_policy_is_noop no_method_store sample_policy "USDC" "0xBBB" 1%positive).
  - reflexivity.
  - vm_compute. reflexivity.
Defined.

(** A policy object without a [method_rules] property gets an empty
    array as well. *)
Lemma absent_method_rules_is_noop σ p tokenName tokenAddress :
  existing_method_rules p = None →
  ∀ operation,
    operation = allowlistToken ∨ operation = denylistToken →
    ∃ body σ' a',
      operation p tokenName tokenAddress σ = Some (body, σ') ∧
      name body = Some (existing_name p) ∧
      updated_method_rules body = Some a' ∧
      snapshot σ' a' = Some [] ∧
      rule_arrays σ' = rule_arrays σ ∧
      method_rule_objs σ' = method_rule_objs σ.
Proof.
  intros Hp operation [-> | ->]; eexists _, _, _.
  - editor_steps. rewrite Hp. simpl. rewrite lookup_insert_eq. simpl.
    repeat (split; [reflexivity|]). split; [|done].
    unfold snapshot. simpl. by rewrite lookup_insert_eq.
  - editor_steps. rewrite Hp. simpl. rewrite lookup_insert_eq. simpl.
    repeat (split; [reflexivity|]). split; [|done].
    unfold snapshot. simpl. by rewrite lookup_insert_eq.
Qed.

(** C5: allowlisting the same token a second time, on any policy object
    whose first method rule holds what the first call produced (the body
    just returned, the mutated input, or the policy read back from the
    service), yields a rule list that ends in two entries for the token:
    the list grows again, nothing is deduplicated. *)
Theorem allowlistToken_twice_duplicates σ p tokenName tokenAddress a rs :
  existing_method_rules p = Some a →
  first_rules σ a = Some rs →
  ∃ body1 σ1 a1,
    allowlistToken p tokenName tokenAddress σ = Some (body1, σ1) ∧
    updated_method_rules body1 = Some a1 ∧
    ∀ σ1' p2 a2,
      existing_method_rules p2 = Some a2 →
      first_rules σ1' a2 = first_rules σ1 a1 →
      ∃ body2 σ2 a3 rs2 rule,
        allowlistToken p2 tokenName tokenAddress σ1' = Some (body2, σ2) ∧
        updated_method_rules body2 = Some a3 ∧
        first_rules σ2 a3 = Some rs2 ∧
        rs2 = rs ++ [rule; rule] ∧
        rs2 !! length rs = Some rule ∧
        rs2 !! S (length rs) = Some rule ∧
        targets_token tokenAddress rule ∧
        first_rules σ2 a3 ≠ first_rules σ1 a1.
Proof.
  intros Hp Hrs.
  destruct (allowlistToken_result σ p tokenName tokenAddress a rs Hp Hrs)
    as (body1 & σ1 & a1 & Hrun1 & _ & Ha1 & Hfirst1).
  exists body1, σ1, a1. split; [done|]. split; [done|].
  intros σ1' p2 a2 Hp2 Hsame. rewrite Hfirst1 in Hsame.
  destruct (allowlistToken_result σ1' p2 tokenName tokenAddress a2 _ Hp2 Hsame)
    as (body2 & σ2 & a3 & Hrun2 & _ & Ha3 & Hfirst2).
  eexists body2, σ2, a3, _, _. split; [done|]. split; [done|].
  split; [exact Hfirst2|]. split; [by rewrite <- app_assoc|].
  split; [|split; [|split]].
  - rewrite lookup_app_l by (rewrite length_app; simpl; lia).
    rewrite lookup_app_r by lia. by rewrite Nat.sub_diag.
  - rewrite lookup_app_r by (rewrite length_app; simpl; lia).
    rewrite length_app. simpl.
    by replace (S (length rs) - (length rs + 1)) with 0 by lia.
  - unfold targets_token, condition_matches. simpl. by apply Exists_cons_hd.
  - rewrite Hfirst1, Hfirst2. intros [= Heq].
    apply (f_equal length) in Heq. rewrite !length_app in Heq. simpl in Heq. lia.
Qed.

Lemma allowlistToken_twice_duplicates_witness :
  ∃ body1 σ1 a1,
    allowlistToken sample_policy "USDC" "0xBBB" (single_method_store []) =
      Some (body1, σ1) ∧
    updated_method_rules body1 = Some a1 ∧
    ∀ σ1' p2 a2,
      existing_method_rules p2 = Some a2 →
      first_rules σ1' a2 = first_rules σ1 a1 →
      ∃ body2 σ2 a3 rs2 rule,
        allowlistToken p2 "USDC" "0xBBB" σ1' = Some (body2, σ2) ∧
        updated_method_rules body2 = Some a3 ∧
        first_rules σ2 a3 = Some rs2 ∧
        rs2 = [] ++ [rule; rule] ∧
        rs2 !! length (@nil PrivyRule) = Some rule ∧
        rs2 !! S (length (@nil PrivyRule)) = Some rule ∧
        targets_token "0xBBB" rule ∧
        first_rules σ2 a3 ≠ first_rules σ1 a1.
Proof.
  apply (allowlistToken_twice_duplicates (single_method_store []) sample_policy
           "USDC" "0xBBB" 1%positive []).
  - reflexivity.
  - vm_compute. reflexivity.
Defined.

(** The second call made on the very policy object given to the first
    call: the same two entries. *)
Example allowlistToken_twice_same_object :
  ∃ body1 σ1 body2 σ2 a3,
    allowlistToken sample_policy "USDC" "0xBBB" (single_method_store []) =
      Some (body1, σ1) ∧
    allowlistToken sample_policy "USDC" "0xBBB" σ1 = Some (body2, σ2) ∧
    updated_method_rules body2 = Some a3 ∧
    first_rules σ2 a3 = Some [newRule "USDC" "0xBBB"; newRule "USDC" "0xBBB"].
Proof.
  eexists _, _, _, _, _.
  split; [vm_compute; reflexivity|].
  split; [vm_compute; reflexivity|].
  split; vm_compute; reflexivity.
Qed.

End EditorProperties.

(* ===================================================================== *)
(** ** Properties of configuration validation and of the handlers *)
(* ===================================================================== *)

Module ActionProperties.
Import Actions.

(** *** Strings *)

Lemma append_cons c s t : String c s +:+ t = String c (s +:+ t).
Proof. reflexivity. Qed.

Lemma append_empty_l s : "" +:+ s = s.
Proof. reflexivity. Qed.

Lemma append_empty_r s : s +:+ "" = s.
Proof. induction s as [|c s IH]; [reflexivity|]. by rewrite append_cons, IH. Qed.

Lemma prefix_empty s : String.prefix "" s = true.
Proof. by destruct s. Qed.

Lemma prefix_append needle s t :
  String.prefix needle s = true → String.prefix needle (s +:+ t) = true.
Proof.
  revert s. induction needle as [|c needle IH]; intros s H.
  - apply prefix_empty.
  - destruct s as [|d s]; [discriminate|].
    rewrite append_cons. simpl in *.
    destruct (ascii_dec c d); [by apply IH|discriminate].
Qed.

Lemma includes_cons needle c s :
  Js.includes needle (String c s) =
  String.prefix needle (String c s) || Js.includes needle s.
Proof. reflexivity. Qed.

Lemma includes_append_l needle s t :
  Js.includes needle s = true → Js.includes needle (s +:+ t) = true.
Proof.
  induction s as [|c s IH]; intros H.
  - destruct needle; [|discriminate]. rewrite append_empty_l. by destruct t.
  - rewrite includes_cons in H. rewrite append_cons, includes_cons.
    apply orb_true_iff in H as [H|H]; apply orb_true_iff.
    + left. by apply (prefix_append needle (String c s) t).
    + right. by apply IH.
Qed.

Lemma includes_append_r needle s t :
  Js.includes needle t = true → Js.includes needle (s +:+ t) = true.
Proof.
  intros H. induction s as [|c s IH]; [by rewrite append_empty_l|].
  rewrite append_cons, includes_cons. apply orb_true_iff. by right.
Qed.

Lemma truthy_absent_or_empty v : Js.nonempty v = None ↔ absent_or_empty v.
Proof.
  unfold absent_or_empty, Js.nonempty. destruct v as [s|].
  - destruct (String.eqb_spec s "") as [->|Hne]; split; auto; try discriminate.
    intros [?|[= ?]]; [discriminate|contradiction].
  - split; auto.
Qed.

Lemma nonempty_Some v s : Js.nonempty v = Some s ↔ v = Some s ∧ s ≠ "".
Proof.
  unfold Js.nonempty. destruct v as [t|]; [|split; [discriminate|by intros [? _]]].
  destruct (String.eqb_spec t "") as [->|Hne]; split.
  - discriminate.
  - intros [[= <-] ?]. contradiction.
  - intros [= ->]. done.
  - intros [[= ->] _]. done.
Qed.

(** *** Configuration validation *)

Lemma validatePrivyConfig_unfold runtime log :
  validatePrivyConfig runtime log =
    match Js.nonempty (getSetting runtime "PRIVY_APP_ID"),
          Js.nonempty (getSetting runtime "PRIVY_APP_SECRET") with
    | None, _ => (Thrown (Error "Privy App ID is required"), log)
    | Some _, None => (Thrown (Error "Privy App Secret is required"), log)
    | Some app_id, Some app_secret =>
        (Returned {| PRIVY_APP_ID := app_id;
                     PRIVY_APP_SECRET := app_secret;
                     PRIVY_MONAD_RPC_URL :=
                       Js.nonempty (getSetting runtime "PRIVY_MONAD_RPC_URL");
                     PRIVY_MONAD_CHAIN_ID :=
                       Js.nonempty (getSetting runtime "PRIVY_MONAD_CHAIN_ID") |}, log)
    end.
Proof.
  unfold validatePrivyConfig, try_catch, throw, ret.
  destruct (Js.nonempty (getSetting runtime "PRIVY_APP_ID")); [|reflexivity].
  destruct (Js.nonempty (getSetting runtime "PRIVY_APP_SECRET")); reflexivity.
Qed.

(** Validation reads settings and nothing else: the log of remote calls
    is the one it was given. *)
Lemma validatePrivyConfig_log runtime log :
  (validatePrivyConfig runtime log).2 = log.
Proof.
  rewrite validatePrivyConfig_unfold.
  destruct (Js.nonempty _); [destruct (Js.nonempty _)|]; reflexivity.
Qed.

(** Every [try] block begins with the validation; when that throws, the
    block throws the same error and no client is reached. *)
Lemma try_block_config_error api config runtime options a log e log' :
  validatePrivyConfig runtime log = (Thrown e, log') →
  try_block api config runtime options a log = (Thrown e, log').
Proof.
  intros H.
  destruct a; simpl;
    unfold get_policy_try, create_policy_try, update_policy_try, create_wallet_try,
      update_wallet_try, get_wallets_try, send_transaction_try, sign_transaction_try,
      bind;
    by rewrite H.
Qed.

(** A [catch] block always returns a failure that quotes the message. *)
Lemma catch_block_returns a e log :
  ∃ pre post,
    catch_block a e log = (Returned (failure (pre +:+ message e +:+ post)), log).
Proof.
  destruct a; simpl;
    unfold get_policy_catch, create_policy_catch, update_policy_catch,
      create_wallet_catch, update_wallet_catch, get_wallets_catch,
      send_transaction_catch, sign_transaction_catch, ret;
    try (eexists _, ""; rewrite append_empty_r; reflexivity).
  - destruct (is_policy_violation e).
    + eexists _, _. reflexivity.
    + eexists _, "". rewrite append_empty_r. reflexivity.
  - destruct (is_policy_violation e).
    + eexists _, _. reflexivity.
    + eexists _, "". rewrite append_empty_r. reflexivity.
Qed.

Lemma handler_of_throw api config runtime options a log e log' :
  try_block api config runtime options a log = (Thrown e, log') →
  handler api config runtime options a log = catch_block a e log'.
Proof. intros H. unfold handler, try_catch. by rewrite H. Qed.

Lemma handler_of_return api config runtime options a log r log' :
  try_block api config runtime options a log = (Returned r, log') →
  handler api config runtime options a log = (Returned r, log').
Proof. intros H. unfold handler, try_catch. by rewrite H. Qed.

(** C6: validation throws whenever PRIVY_APP_ID or PRIVY_APP_SECRET is
    absent or empty, and then no remote call has been made, by the
    validation or by any handler that ran it; with the application id
    present and the secret absent or empty the error is the one about
    the secret; with both present validation returns them, and an
    optional setting that is absent is absent in the result. *)
Theorem validatePrivyConfig_requires_secrets runtime log :
  (absent_or_empty (getSetting runtime "PRIVY_APP_ID") ∨
   absent_or_empty (getSetting runtime "PRIVY_APP_SECRET") →
   ∃ e, validatePrivyConfig runtime log = (Thrown e, log) ∧
        ∀ api config options a,
          ∃ r, handler api config runtime options a log = (Returned r, log) ∧
               success r = false) ∧
  (¬ absent_or_empty (getSetting runtime "PRIVY_APP_ID") →
   absent_or_empty (getSetting runtime "PRIVY_APP_SECRET") →
   validatePrivyConfig runtime log =
     (Thrown (Error "Privy App Secret is required"), log)) ∧
  (¬ absent_or_empty (getSetting runtime "PRIVY_APP_ID") →
   ¬ absent_or_empty (getSetting runtime "PRIVY_APP_SECRET") →
   ∃ cfg, validatePrivyConfig runtime log = (Returned cfg, log) ∧
          getSetting runtime "PRIVY_APP_ID" = Some (PRIVY_APP_ID cfg) ∧
          getSetting runtime "PRIVY_APP_SECRET" = Some (PRIVY_APP_SECRET cfg) ∧
          (getSetting runtime "PRIVY_MONAD_RPC_URL" = None →
           PRIVY_MONAD_RPC_URL cfg = None) ∧
          (getSetting runtime "PRIVY_MONAD_CHAIN_ID" = None →
           PRIVY_MONAD_CHAIN_ID cfg = None)).
Proof.
  rewrite <- !truthy_absent_or_empty. rewrite validatePrivyConfig_unfold.
  split; [|split].
  - intros Hmissing.
    assert (∃ e, match Js.nonempty (getSetting runtime "PRIVY_APP_ID"),
                       Js.nonempty (getSetting runtime "PRIVY_APP_SECRET") with
                 | None, _ => (Thrown (Error "Privy App ID is required"), log)
                 | Some _, None => (Thrown (Error "Privy App Secret is required"), log)
                 | Some app_id, Some app_secret =>
                     (Returned {| PRIVY_APP_ID := app_id;
                                  PRIVY_APP_SECRET := app_secret;
                                  PRIVY_MONAD_RPC_URL :=
                                    Js.nonempty (getSetting runtime "PRIVY_MONAD_RPC_URL");
                                  PRIVY_MONAD_CHAIN_ID :=
                                    Js.nonempty (getSetting runtime "PRIVY_MONAD_CHAIN_ID") |},
                      log)
                 end = (@Thrown PrivyConfig e, log)) as [e He].
    { destruct (Js.nonempty (getSetting runtime "PRIVY_APP_ID")); [|by eauto].
      destruct (Js.nonempty (getSetting runtime "PRIVY_APP_SECRET")); [|by eauto].
      destruct Hmissing; discriminate. }
    exists e. split; [exact He|].
    intros api config options a. rewrite <- validatePrivyConfig_unfold in He.
    rewrite (handler_of_throw _ _ _ _ _ _ e log)
      by by apply try_block_config_error.
    destruct (catch_block_returns a e log) as (pre & post & ->). eauto.
  - intros Hid Hsecret.
    destruct (Js.nonempty (getSetting runtime "PRIVY_APP_ID")); [|done].
    by rewrite Hsecret.
  - intros Hid Hsecret.
    destruct (Js.nonempty (getSetting runtime "PRIVY_APP_ID")) as [app_id|] eqn:Ei; [|done].
    destruct (Js.nonempty (getSetting runtime "PRIVY_APP_SECRET")) as [app_secret|] eqn:Es;
      [|done].
    apply nonempty_Some in Ei as [Ei _]. apply nonempty_Some in Es as [Es _].
    eexists. split; [reflexivity|]. simpl.
    split; [done|]. split; [done|]. split; by intros ->.
Qed.

(** The case the specification singles out, run: the application id is
    set, the secret is not. *)
Lemma validatePrivyConfig_requires_secrets_witness :
  validatePrivyConfig runtime_without_secret [] =
    (Thrown (Error "Privy App Secret is required"), []).
Proof.
  apply (validatePrivyConfig_requires_secrets runtime_without_secret []).
  - intros [H|H]; discriminate H.
  - left. reflexivity.
Defined.

(** A missing required option makes the [try] block return a failure
    before any client is reached. *)
Lemma try_block_validation_error api config runtime options a log cfg :
  validatePrivyConfig runtime log = (Returned cfg, log) →
  missing_required config options a →
  ∃ text, try_block api config runtime options a log = (Returned (failure text), log).
Proof.
  intros Hcfg Hmissing.
  destruct a; simpl in *;
    unfold get_policy_try, update_policy_try, update_wallet_try,
      send_transaction_try, sign_transaction_try, bind, ret;
    rewrite ?Hcfg; try contradiction.
  - apply truthy_absent_or_empty in Hmissing as ->. eauto.
  - destruct Hmissing as [H|[H|H]]; apply truthy_absent_or_empty in H.
    + rewrite H. eauto.
    + destruct (Js.nonempty (policyId_option config options)); [|by eauto].
      rewrite H. eauto.
    + destruct (Js.nonempty (policyId_option config options)); [|by eauto].
      rewrite H. destruct (Js.nonempty (options ≫= opt_tokenName)); eauto.
  - destruct Hmissing as [H|[H|H]].
    + apply truthy_absent_or_empty in H as ->. eauto.
    + destruct (Js.nonempty (options ≫= opt_walletId)); [|by eauto].
      rewrite H. eauto.
    + destruct (Js.nonempty (options ≫= opt_walletId)); [|by eauto].
      rewrite H. eauto.
  - destruct Hmissing as [H|[H|H]]; apply truthy_absent_or_empty in H; rewrite H.
    + eauto.
    + destruct (Js.nonempty (options ≫= opt_walletId)); eauto.
    + destruct (Js.nonempty (options ≫= opt_walletId)),
        (Js.nonempty (options ≫= opt_to)); eauto.
  - destruct Hmissing as [H|H]; apply truthy_absent_or_empty in H; rewrite H.
    + eauto.
    + destruct (Js.nonempty (options ≫= opt_walletId)); eauto.
Qed.

(** With both secrets set and no optional setting, validation returns
    the secrets and leaves the optional fields absent. *)
Example validatePrivyConfig_sample :
  validatePrivyConfig sample_runtime [] =
    (Returned {| PRIVY_APP_ID := "app-id";
                 PRIVY_APP_SECRET := "app-secret";
                 PRIVY_MONAD_RPC_URL := None;
                 PRIVY_MONAD_CHAIN_ID := None |}, []).
Proof. vm_compute. reflexivity. Qed.

(** An empty secret counts as missing. *)
Example validatePrivyConfig_empty_secret :
  validatePrivyConfig (settings_of (Some "app-id") (Some "")) [] =
    (Thrown (Error "Privy App Secret is required"), []).
Proof. vm_compute. reflexivity. Qed.

(** In [Actions], where the settings lookup returns and the clients
    throw [Error] objects: each of the eight handlers returns a result,
    whatever the settings, the options and the answers of the service.
    When an error is thrown anywhere inside its [try] block (by the
    configuration validation or by a client), that result is
    [{success: false, response}] with the error's message inside the
    response and no data; when a required option is missing the result
    has [success: false] as well, and no remote call was made.
    [Boundary] has the handlers for thrown values of any kind. *)
Theorem handlers_never_throw api config runtime options a log :
  ∃ r log',
    handler api config runtime options a log = (Returned r, log') ∧
    (∀ e log1,
       try_block api config runtime options a log = (Thrown e, log1) →
       log' = log1 ∧ success r = false ∧ data r = None ∧
       ∃ pre post, response r = pre +:+ message e +:+ post) ∧
    (missing_required config options a → success r = false ∧ log' = log).
Proof.
  destruct (try_block api config runtime options a log) as [[r|e] log'] eqn:Htry.
  - exists r, log'. split; [by apply handler_of_return|].
    split; [intros ? ? [=]|].
    intros Hmissing.
    destruct (validatePrivyConfig runtime log) as [[cfg|e] log0] eqn:Hcfg.
    + assert (log0 = log) as ->
        by (by rewrite <- (validatePrivyConfig_log runtime log), Hcfg).
      destruct (try_block_validation_error api config runtime options a log cfg
                  Hcfg Hmissing) as [text Htext].
      rewrite Htext in Htry. by injection Htry as <- <-.
    + rewrite (try_block_config_error api config runtime options a log e log0 Hcfg)
        in Htry.
      discriminate.
  - destruct (catch_block_returns a e log') as (pre & post & Hcatch).
    eexists _, log'. split.
    + rewrite (handler_of_throw _ _ _ _ _ _ _ _ Htry). exact Hcatch.
    + split; [intros e' log1 [= <- <-]; simpl; eauto 10|].
      intros Hmissing. split; [reflexivity|].
      destruct (validatePrivyConfig runtime log) as [[cfg|e0] log0] eqn:Hcfg.
      * assert (log0 = log) as ->
          by (by rewrite <- (validatePrivyConfig_log runtime log), Hcfg).
        destruct (try_block_validation_error api config runtime options a log cfg
                    Hcfg Hmissing) as [text Htext].
        rewrite Htext in Htry. discriminate.
      * assert (log0 = log) as ->
          by (by rewrite <- (validatePrivyConfig_log runtime log), Hcfg).
        rewrite (try_block_config_error api config runtime options a log e0 log Hcfg)
          in Htry.
        by injection Htry as _ <-.
Qed.

(** The same for the entries of the plugin's action table, which carries
    the eight names in the order of the source. *)
Lemma plugin_actions_return api config :
  List.map action_name (actions (new_PrivyPlugin api config)) =
    [ "PRIVY_GET_POLICY"; "PRIVY_CREATE_POLICY"; "PRIVY_UPDATE_POLICY";
      "PRIVY_CREATE_WALLET"; "PRIVY_UPDATE_WALLET"; "PRIVY_GET_WALLETS";
      "PRIVY_SEND_TRANSACTION"; "PRIVY_SIGN_TRANSACTION" ] ∧
  Forall (λ act, ∀ runtime options log,
            ∃ r log', action_handler act runtime options log = (Returned r, log'))
         (actions (new_PrivyPlugin api config)).
Proof.
  split; [reflexivity|].
  unfold new_PrivyPlugin, action_names. simpl.
  repeat constructor; simpl; intros runtime options log.
  all: match goal with
       | |- ∃ r log', handler ?api ?cfg ?rt ?opts ?a ?l = _ =>
           destruct (try_block api cfg rt opts a l) as [[r|e] log'] eqn:Htry;
           [ exists r, log'; by apply handler_of_return
           | destruct (catch_block_returns a e log') as (pre & post & Hcatch);
             eexists _, _; rewrite (handler_of_throw _ _ _ _ _ _ _ _ Htry);
             exact Hcatch ]
       end.
Qed.

(** A handler called without the option it requires. *)
Example get_policy_without_id :
  handler sample_api DEFAULT_CONFIG sample_runtime (Some no_options) PRIVY_GET_POLICY [] =
    (Returned (failure "Policy ID is required. Please specify a policy ID or set a default policy ID in the configuration."),
     []).
Proof. vm_compute. reflexivity. Qed.

(** An error thrown by a client, here for the wallet list, ends in the
    handler's failure text, after the one call. *)
Lemma get_wallets_remote_error api config runtime options log cfg e :
  validatePrivyConfig runtime log = (Returned cfg, log) →
  api_getWallets api (PRIVY_APP_ID cfg) (PRIVY_APP_SECRET cfg) = Thrown e →
  handler api config runtime options PRIVY_GET_WALLETS log =
    (Returned (failure ("Error retrieving wallets: " +:+ message e)),
     log ++ [GetWallets (PRIVY_APP_ID cfg) (PRIVY_APP_SECRET cfg)]).
Proof.
  intros Hcfg Hapi.
  unfold handler, try_catch. simpl.
  unfold get_wallets_try, bind. rewrite Hcfg. simpl.
  unfold perform. rewrite Hapi. reflexivity.
Qed.

(** *** Policy-violation wording *)

(** C8, as stated for any handler, fails: the policy lookup meets the
    error "policy not found", whose message contains "policy", and
    answers with the generic wording, which does not speak of policy
    restrictions. *)
Lemma get_policy_keeps_generic_wording :
  try_block sample_api DEFAULT_CONFIG sample_runtime
    (Some (policy_options "policy-1")) PRIVY_GET_POLICY [] =
    (Thrown (Error "policy not found"),
     [GetPolicy "DefaultPolicy" "app-id" "app-secret" "policy-1"]) ∧
  Js.includes "policy" (message (Error "policy not found")) = true ∧
  handler sample_api DEFAULT_CONFIG sample_runtime
    (Some (policy_options "policy-1")) PRIVY_GET_POLICY [] =
    (Returned {| success := false;
                 response := "Error retrieving policy: policy not found";
                 data := None |},
     [GetPolicy "DefaultPolicy" "app-id" "app-secret" "policy-1"]) ∧
  mentions_policy_restrictions "Error retrieving policy: policy not found" = false.
Proof. repeat split; vm_compute; reflexivity. Qed.

(** C8, amended: in the PRIVY_SEND_TRANSACTION and PRIVY_SIGN_TRANSACTION
    handlers, an error whose message contains "policy" or "denied" gives
    [success: false] and a response that names the policy restrictions
    and the wallet's compliance policies around the message. *)
Theorem transaction_handlers_reword_policy_errors
    api config runtime options a log e log1 :
  a = PRIVY_SEND_TRANSACTION ∨ a = PRIVY_SIGN_TRANSACTION →
  try_block api config runtime options a log = (Thrown e, log1) →
  Js.includes "policy" (message e) = true ∨ Js.includes "denied" (message e) = true →
  ∃ r,
    handler api config runtime options a log = (Returned r, log1) ∧
    success r = false ∧
    response r =
      match a with
      | PRIVY_SEND_TRANSACTION =>
          "Transaction failed due to policy restrictions: " +:+ message e +:+
          ". This transaction may involve tokens or addresses that aren't allowed by your wallet's compliance policies."
      | _ =>
          "Signing failed due to policy restrictions: " +:+ message e +:+
          ". This operation may not be allowed by your wallet's compliance policies."
      end ∧
    mentions_policy_restrictions (response r) = true.
Proof.
  intros Ha Htry Hmsg.
  assert (is_policy_violation e = true) as Hviolation.
  { unfold is_policy_violation. apply orb_true_iff. exact Hmsg. }
  rewrite (handler_of_throw _ _ _ _ _ _ _ _ Htry).
  destruct Ha as [-> | ->]; simpl;
    unfold send_transaction_catch, sign_transaction_catch; rewrite Hviolation;
    eexists; (split; [reflexivity|]); simpl; (split; [reflexivity|]);
    (split; [reflexivity|]);
    unfold mentions_policy_restrictions; apply andb_true_iff; split.
  - apply includes_append_l. vm_compute. reflexivity.
  - do 2 apply includes_append_r. vm_compute. reflexivity.
  - apply includes_append_l. vm_compute. reflexivity.
  - do 2 apply includes_append_r. vm_compute. reflexivity.
Qed.

Lemma transaction_handlers_reword_policy_errors_witness :
  ∃ r,
    handler sample_api DEFAULT_CONFIG sample_runtime (Some transfer_options)
      PRIVY_SEND_TRANSACTION [] =
      (Returned r,
       [SendTransaction "app-id" "app-secret"
          {| tx_wallet_id := "wallet-1";
             tx_to := "0xE3070d3e4309afA3bC9a6b057685743CF42da77C";
             tx_value := "1000";
             tx_data := None |}]) ∧
    success r = false ∧
    response r =
      "Transaction failed due to policy restrictions: " +:+
      message (Error "Transaction denied") +:+
      ". This transaction may involve tokens or addresses that aren't allowed by your wallet's compliance policies." ∧
    mentions_policy_restrictions (response r) = true.
Proof.
  apply (transaction_handlers_reword_policy_errors
           sample_api DEFAULT_CONFIG sample_runtime (Some transfer_options)
           PRIVY_SEND_TRANSACTION [] (Error "Transaction denied")).
  - left. reflexivity.
  - vm_compute. reflexivity.
  - right. vm_compute. reflexivity.
Defined.

(** *** Wallet creation and the chain type *)

Lemma toLowerCase_nonempty s : s ≠ "" → Js.toLowerCase s ≠ "".
Proof. by destruct s. Qed.

Lemma array_includes_spec l s : Js.array_includes l s = true ↔ s ∈ l.
Proof.
  unfold Js.array_includes. rewrite existsb_exists. split.
  - intros (x & Hin & ->%String.eqb_eq). by apply list_elem_of_In.
  - intros Hin. exists s. split; [by apply list_elem_of_In|apply String.eqb_refl].
Qed.

(** The chain type the handler works with, for a non-empty option. *)
Lemma chainType_option_given opts chainType :
  opt_chainType opts = Some chainType →
  chainType ≠ "" →
  chainType_option (Some opts) = Js.toLowerCase chainType.
Proof.
  intros Hopt Hne. unfold chainType_option. simpl. rewrite Hopt. simpl.
  unfold Js.or_else, Js.nonempty.
  destruct (String.eqb_spec (Js.toLowerCase chainType) "") as [Heq|_]; [|done].
  by apply toLowerCase_nonempty in Heq.
Qed.

(** The [try] block of PRIVY_CREATE_WALLET once the configuration is
    valid and the chain type is "monad". *)
Lemma create_wallet_try_monad api config runtime opts chainType log cfg :
  opt_chainType opts = Some chainType →
  Js.toLowerCase chainType = "monad" →
  validatePrivyConfig runtime log = (Returned cfg, log) →
  create_wallet_try api config runtime (Some opts) log =
    let request :=
      {| chain_type := "ethereum";
         policy_ids := match Js.nonempty (policyId_option config (Some opts)) with
                       | Some policyId => Some [policyId]
                       | None => None
                       end |} in
    let log' := log ++ [CreateWallet (PRIVY_APP_ID cfg) (PRIVY_APP_SECRET cfg) request] in
    match api_createWallet api (PRIVY_APP_ID cfg) (PRIVY_APP_SECRET cfg) request with
    | Returned walletData =>
        (Returned {| success := true;
                     response :=
                       "Successfully created a new Monad wallet with address: " +:+
                       address walletData +:+
                       ". This wallet is compatible with the Monad blockchain.";
                     data := Some (WalletData walletData) |}, log')
    | Thrown e => (Thrown e, log')
    end.
Proof.
  intros Hopt Hlower Hcfg.
  assert (chainType ≠ "") as Hne by (intros ->; discriminate Hlower).
  unfold create_wallet_try, bind. rewrite Hcfg.
  rewrite (chainType_option_given opts chainType Hopt Hne), Hlower. simpl.
  unfold perform.
  destruct (api_createWallet _ _ _ _); reflexivity.
Qed.

(** C9: when the chainType option is "monad" in any letter case, the only
    request the PRIVY_CREATE_WALLET handler can send to the wallet client
    carries chain_type "ethereum"; with a valid configuration that
    request is sent; and when the client answers with a wallet the
    handler succeeds with the text for a Monad wallet. *)
Theorem create_wallet_monad_requests_ethereum api config runtime opts chainType log :
  opt_chainType opts = Some chainType →
  Js.toLowerCase chainType = "monad" →
  ∃ r log',
    handler api config runtime (Some opts) PRIVY_CREATE_WALLET log = (Returned r, log') ∧
    (log' = log ∨
     ∃ privyAppID privyAppSecret request,
       log' = log ++ [CreateWallet privyAppID privyAppSecret request] ∧
       chain_type request = "ethereum" ∧ chain_type request ≠ "monad") ∧
    (∀ cfg,
       validatePrivyConfig runtime log = (Returned cfg, log) →
       ∃ request,
         log' = log ++ [CreateWallet (PRIVY_APP_ID cfg) (PRIVY_APP_SECRET cfg) request] ∧
         chain_type request = "ethereum" ∧
         ∀ walletData,
           api_createWallet api (PRIVY_APP_ID cfg) (PRIVY_APP_SECRET cfg) request =
             Returned walletData →
           success r = true) ∧
    (success r = true →
     ∃ walletData,
       data r = Some (WalletData walletData) ∧
       response r =
         "Successfully created a new Monad wallet with address: " +:+
         address walletData +:+
         ". This wallet is compatible with the Monad blockchain.").
Proof.
  intros Hopt Hlower.
  destruct (validatePrivyConfig runtime log) as [[cfg|e] log0] eqn:Hcfg.
  - assert (log0 = log) as -> by (by rewrite <- (validatePrivyConfig_log runtime log), Hcfg).
    pose proof (create_wallet_try_monad api config runtime opts chainType log cfg
                  Hopt Hlower Hcfg) as Htry.
    simpl in Htry.
    destruct (api_createWallet api (PRIVY_APP_ID cfg) (PRIVY_APP_SECRET cfg) _)
      as [walletData|e] eqn:Hapi.
    + eexists _, _. split.
      { exact (handler_of_return api config runtime (Some opts) PRIVY_CREATE_WALLET
                 log _ _ Htry). }
      split; [right; eexists _, _, _; split; [reflexivity|]; by split|].
      split.
      * intros cfg' [= <-]. eexists. split; [reflexivity|]. split; [reflexivity|].
        intros. reflexivity.
      * intros _. exists walletData. by split.
    + destruct (catch_block_returns PRIVY_CREATE_WALLET e
                  (log ++ [CreateWallet (PRIVY_APP_ID cfg) (PRIVY_APP_SECRET cfg)
                             {| chain_type := "ethereum";
                                policy_ids :=
                                  match Js.nonempty (policyId_option config (Some opts)) with
                                  | Some policyId => Some [policyId]
                                  | None => None
                                  end |}]))
        as (pre & post & Hcatch).
      eexists _, _. split.
      { rewrite (handler_of_throw api config runtime (Some opts) PRIVY_CREATE_WALLET
                   log e _ Htry).
        exact Hcatch. }
      split; [right; eexists _, _, _; split; [reflexivity|]; by split|].
      split.
      * intros cfg' [= <-]. eexists. split; [reflexivity|]. split; [reflexivity|].
        intros walletData Hw. rewrite Hw in Hapi. discriminate.
      * simpl. discriminate.
  - assert (log0 = log) as -> by (by rewrite <- (validatePrivyConfig_log runtime log), Hcfg).
    destruct (catch_block_returns PRIVY_CREATE_WALLET e log) as (pre & post & Hcatch).
    eexists _, _. split.
    { rewrite (handler_of_throw _ _ _ _ _ _ e log)
        by by apply try_block_config_error.
      exact Hcatch. }
    split; [by left|]. split; [intros cfg [=]|simpl; discriminate].
Qed.

Lemma create_wallet_monad_requests_ethereum_witness :
  ∃ r log',
    handler sample_api DEFAULT_CONFIG sample_runtime (Some (chain_options "MONAD"))
      PRIVY_CREATE_WALLET [] = (Returned r, log') ∧
    (log' = [] ∨
     ∃ privyAppID privyAppSecret request,
       log' = [] ++ [CreateWallet privyAppID privyAppSecret request] ∧
       chain_type request = "ethereum" ∧ chain_type request ≠ "monad") ∧
    (∀ cfg,
       validatePrivyConfig sample_runtime [] = (Returned cfg, []) →
       ∃ request,
         log' = [] ++ [CreateWallet (PRIVY_APP_ID cfg) (PRIVY_APP_SECRET cfg) request] ∧
         chain_type request = "ethereum" ∧
         ∀ walletData,
           api_createWallet sample_api (PRIVY_APP_ID cfg) (PRIVY_APP_SECRET cfg) request =
             Returned walletData →
           success r = true) ∧
    (success r = true →
     ∃ walletData,
       data r = Some (WalletData walletData) ∧
       response r =
         "Successfully created a new Monad wallet with address: " +:+
         address walletData +:+
         ". This wallet is compatible with the Monad blockchain.").
Proof.
  apply (create_wallet_monad_requests_ethereum
           sample_api DEFAULT_CONFIG sample_runtime (chain_options "MONAD") "MONAD" []).
  - reflexivity.
  - vm_compute. reflexivity.
Defined.

(** The same invocation, run. *)
Example create_wallet_monad_example :
  handler sample_api DEFAULT_CONFIG sample_runtime (Some (chain_options "MoNaD"))
    PRIVY_CREATE_WALLET [] =
    (Returned
       {| success := true;
          response :=
            "Successfully created a new Monad wallet with address: 0xE3070d3e4309afA3bC9a6b057685743CF42da77C. This wallet is compatible with the Monad blockchain.";
          data := Some (WalletData sample_wallet) |},
     [CreateWallet "app-id" "app-secret"
        {| chain_type := "ethereum"; policy_ids := None |}]).
Proof. vm_compute. reflexivity. Qed.

(** C10, as stated, fails twice over.  An empty chainType option is not
    one of the three names, yet the handler falls back to "ethereum",
    asks the client for a wallet and succeeds; and without the
    application secret the handler reports the configuration error, not
    the supported chain types. *)
Lemma create_wallet_chain_check_exceptions :
  (Js.array_includes ["ethereum"; "solana"; "monad"] (Js.toLowerCase "") = false ∧
   handler sample_api DEFAULT_CONFIG sample_runtime (Some (chain_options ""))
     PRIVY_CREATE_WALLET [] =
     (Returned
        {| success := true;
           response :=
             "Successfully created a new wallet with address: 0xE3070d3e4309afA3bC9a6b057685743CF42da77C";
           data := Some (WalletData sample_wallet) |},
      [CreateWallet "app-id" "app-secret"
         {| chain_type := "ethereum"; policy_ids := None |}])) ∧
  (Js.array_includes ["ethereum"; "solana"; "monad"] (Js.toLowerCase "bitcoin") = false ∧
   handler sample_api DEFAULT_CONFIG runtime_without_secret (Some (chain_options "bitcoin"))
     PRIVY_CREATE_WALLET [] =
     (Returned
        {| success := false;
           response := "Error creating wallet: Privy App Secret is required";
           data := None |},
      [])).
Proof. repeat split; vm_compute; reflexivity. Qed.

(** C10, amended: when the chainType option is a non-empty string that,
    lower-cased, is none of "ethereum", "solana", "monad", the
    PRIVY_CREATE_WALLET handler returns [success: false] and sends no
    request to the wallet client; when the configuration is valid, the
    response is the message that lists the supported chain types. *)
Theorem create_wallet_rejects_unknown_chain api config runtime opts chainType log :
  opt_chainType opts = Some chainType →
  chainType ≠ "" →
  Js.toLowerCase chainType ∉ ["ethereum"; "solana"; "monad"] →
  ∃ r,
    handler api config runtime (Some opts) PRIVY_CREATE_WALLET log = (Returned r, log) ∧
    success r = false ∧
    data r = None ∧
    (∀ cfg,
       validatePrivyConfig runtime log = (Returned cfg, log) →
       response r =
         "Invalid chain type. Supported chain types are: ethereum, solana, monad.").
Proof.
  intros Hopt Hne Hnot.
  assert (Js.array_includes ["ethereum"; "solana"; "monad"] (Js.toLowerCase chainType) = false)
    as Hincl.
  { apply not_true_iff_false. by rewrite array_includes_spec. }
  destruct (validatePrivyConfig runtime log) as [[cfg|e] log0] eqn:Hcfg.
  - assert (log0 = log) as -> by (by rewrite <- (validatePrivyConfig_log runtime log), Hcfg).
    eexists. split.
    + apply handler_of_return. simpl. unfold create_wallet_try, bind. rewrite Hcfg.
      rewrite (chainType_option_given opts chainType Hopt Hne), Hincl. reflexivity.
    + simpl. by repeat split.
  - assert (log0 = log) as -> by (by rewrite <- (validatePrivyConfig_log runtime log), Hcfg).
    destruct (catch_block_returns PRIVY_CREATE_WALLET e log) as (pre & post & Hcatch).
    eexists. split.
    + rewrite (handler_of_throw _ _ _ _ _ _ e log)
        by by apply try_block_config_error.
      exact Hcatch.
    + simpl. split; [done|]. split; [done|]. intros cfg [=].
Qed.

Lemma create_wallet_rejects_unknown_chain_witness :
  ∃ r,
    handler sample_api DEFAULT_CONFIG sample_runtime (Some (chain_options "Bitcoin"))
      PRIVY_CREATE_WALLET [] = (Returned r, []) ∧
    success r = false ∧
    data r = None ∧
    (∀ cfg,
       validatePrivyConfig sample_runtime [] = (Returned cfg, []) →
       response r =
         "Invalid chain type. Supported chain types are: ethereum, solana, monad.").
Proof.
  apply (create_wallet_rejects_unknown_chain
           sample_api DEFAULT_CONFIG sample_runtime (chain_options "Bitcoin") "Bitcoin" []).
  - reflexivity.
  - discriminate.
  - vm_compute. intros H. repeat (apply elem_of_cons in H as [H|H]; [discriminate H|]).
    by apply elem_of_nil in H.
Defined.

End ActionProperties.

(* ===================================================================== *)
(** ** The action boundary: which thrown values the handlers answer *)
(* ===================================================================== *)

Module BoundaryProperties.
Import Actions Boundary.

Lemma bind_resolved {A B} (a : A) (k : A → Settled B) : Resolved a ≫= k = k a.
Proof. reflexivity. Qed.



Ltac unfold_try :=
  unfold get_policy_try, create_policy_try, update_policy_try, create_wallet_try,
    update_wallet_try, get_wallets_try, send_transaction_try, sign_transaction_try,
    bind.





(** On a value with a string message the [catch] blocks are those of
    [Actions]. *)
Lemma catch_block_of_error a e log :
  Actions.catch_block a e log =
    (match catch_block a (AnError e) with
     | Resolved r => Returned r
     | Rejected _ => Thrown e
     end, log) ∧
  ∃ r, catch_block a (AnError e) = Resolved r.
Proof.
  destruct a; simpl; (split; [reflexivity|eauto]) ||
    (unfold Actions.send_transaction_catch, Actions.sign_transaction_catch,
       send_transaction_catch, sign_transaction_catch, policy_violation,
       is_policy_violation, Actions.ret; simpl;
     destruct (Js.includes "policy" (message e)); simpl;
     [|destruct (Js.includes "denied" (message e)); simpl]; split; eauto).
Qed.


(** *** The handlers of [Actions] are these handlers, run with
    collaborators that throw [Error] objects only *)


Lemma validatePrivyConfig_of_actions runtime log :
  validatePrivyConfig (of_runtime runtime) log =
    (of_outcome (Actions.validatePrivyConfig runtime log).1,
     (Actions.validatePrivyConfig runtime log).2).
Proof.
  rewrite ActionProperties.validatePrivyConfig_unfold.
  unfold validatePrivyConfig, try_catch, bind, lookup, throw, ret. simpl.
  destruct (Js.nonempty (Actions.getSetting runtime "PRIVY_APP_ID")); [|reflexivity].
  destruct (Js.nonempty (Actions.getSetting runtime "PRIVY_APP_SECRET")); reflexivity.
Qed.

Lemma try_block_of_actions api config runtime options a log :
  try_block (of_api api) config (of_runtime runtime) options a log =
    (of_outcome (Actions.try_block api config runtime options a log).1,
     (Actions.try_block api config runtime options a log).2).
Proof.
  destruct a; simpl; unfold_try;
    unfold Actions.get_policy_try, Actions.create_policy_try, Actions.update_policy_try,
      Actions.create_wallet_try, Actions.update_wallet_try, Actions.get_wallets_try,
      Actions.send_transaction_try, Actions.sign_transaction_try, Actions.bind;
    rewrite validatePrivyConfig_of_actions;
    destruct (Actions.validatePrivyConfig runtime log) as [[cfg|e] log0]; try reflexivity.
  - simpl. destruct (Js.nonempty (policyId_option config options)) as [policyId|];
      [|reflexivity].
    simpl. destruct (String.eqb policyId ""); [reflexivity|].
    unfold perform, Actions.perform.
    destruct (Actions.api_getPolicy _ _ _ _ _); reflexivity.
  - simpl. unfold perform, Actions.perform.
    destruct (Actions.api_createPolicy _ _ _ _); reflexivity.
  - simpl. destruct (Js.nonempty (policyId_option config options)) as [policyId|];
      [|reflexivity].
    destruct (Js.nonempty (options ≫= opt_tokenName)) as [tokenName|]; [|reflexivity].
    destruct (Js.nonempty (options ≫= opt_tokenAddress)) as [tokenAddress|]; [|reflexivity].
    simpl. destruct (String.eqb policyId ""); [reflexivity|].
    unfold perform, Actions.perform.
    destruct (Actions.api_updatePolicy _ _ _ _ _ _ _ _); reflexivity.
  - destruct (Js.array_includes ["ethereum"; "solana"; "monad"] (chainType_option options));
      simpl; [|reflexivity].
    unfold perform, Actions.perform.
    destruct (Actions.api_createWallet _ _ _ _); reflexivity.
  - simpl. destruct (Js.nonempty (options ≫= opt_walletId)) as [walletId|]; [|reflexivity].
    destruct (options ≫= opt_policyIds) as [[|policyId policyIds]|]; try reflexivity.
    simpl. destruct (String.eqb walletId ""); [reflexivity|].
    unfold perform, Actions.perform.
    destruct (Actions.api_updateWallet _ _ _ _ _); reflexivity.
  - simpl. unfold perform, Actions.perform.
    destruct (Actions.api_getWallets _ _ _) as [[|w ws]|e]; reflexivity.
  - simpl. destruct (Js.nonempty (options ≫= opt_walletId)) as [walletId|]; [|reflexivity].
    destruct (Js.nonempty (options ≫= opt_to)) as [to|]; [|reflexivity].
    destruct (Js.nonempty (options ≫= opt_value)) as [value|]; [|reflexivity].
    simpl. destruct (String.eqb walletId ""); [reflexivity|].
    unfold perform, Actions.perform.
    destruct (Actions.api_sendTransaction _ _ _ _); reflexivity.
  - simpl. destruct (Js.nonempty (options ≫= opt_walletId)) as [walletId|]; [|reflexivity].
    destruct (Js.nonempty (options ≫= opt_message)) as [msg|]; [|reflexivity].
    simpl. destruct (String.eqb walletId ""); [reflexivity|].
    unfold perform, Actions.perform.
    destruct (Actions.api_signTransaction _ _ _ _ _); reflexivity.
Qed.

(** What a handler of [Actions] returns is what the handler resolves to
    here, with the same calls. *)
Lemma handler_of_actions api config runtime options a log r log' :
  Actions.handler api config runtime options a log = (Returned r, log') →
  handler (of_api api) config (of_runtime runtime) options a log = (Resolved r, log').
Proof.
  unfold handler, Actions.handler, Actions.try_catch.
  rewrite try_block_of_actions.
  destruct (Actions.try_block api config runtime options a log) as [[r0|e] log0]; simpl.
  - by intros [= <- <-].
  - destruct (catch_block_of_error a e log0) as [-> [r1 ->]]. by intros [= <- <-].
Qed.

(** *** The boundary *)




(** A thrown value without a message is still answered by the six
    handlers with the generic wording, which print it as "undefined". *)
Example get_wallets_prints_undefined :
  handler (throwing_api NoMessage) DEFAULT_CONFIG (of_runtime sample_runtime) None
    PRIVY_GET_WALLETS [] =
    (Resolved (failure "Error retrieving wallets: undefined"),
     [GetWallets "app-id" "app-secret"]).
Proof. vm_compute. reflexivity. Qed.

End BoundaryProperties.

(* ===================================================================== *)
(** ** Further properties of the policy rule editor *)
(* ===================================================================== *)

Module EditorFrame.
Import Editor Tree.

Lemma snapshot_cons_inv σ a mr mrs :
  snapshot σ a = Some (mr :: mrs) →
  ∃ first rest o,
    method_rule_arrays σ !! a = Some (first :: rest) ∧
    method_rule_objs σ !! first = Some o ∧
    rule_arrays σ !! obj_rules o = Some (rules mr) ∧
    obj_method o = method mr ∧
    Forall2 (λ l y, snapshot_method_rule σ l = Some y) rest mrs.
Proof.
  unfold snapshot. intros H.
  destruct (method_rule_arrays σ !! a) as [elems|] eqn:Ha; [|discriminate].
  simpl in H. apply mapM_Some in H.
  inversion H as [|first y rest ys Hfirst Hrest]; subst.
  unfold snapshot_method_rule in Hfirst.
  destruct (method_rule_objs σ !! first) as [o|] eqn:Ho; [|discriminate].
  simpl in Hfirst.
  destruct (rule_arrays σ !! obj_rules o) as [rs|] eqn:Hr; [|discriminate].
  injection Hfirst as <-. simpl.
  exists first, rest, o. eauto 10.
Qed.

Lemma snapshot_first_rules σ a mr mrs :
  snapshot σ a = Some (mr :: mrs) → first_rules σ a = Some (rules mr).
Proof.
  intros (first & rest & o & Ha & Ho & Hr & _ & _)%snapshot_cons_inv.
  by eapply EditorProperties.first_rules_intro.
Qed.

Lemma snapshot_intro σ a elems mrs :
  method_rule_arrays σ !! a = Some elems →
  Forall2 (λ l y, snapshot_method_rule σ l = Some y) elems mrs →
  snapshot σ a = Some mrs.
Proof. unfold snapshot. intros -> H. by apply mapM_Some in H. Qed.

Lemma Forall2_impl_elem {A B} (P Q : A → B → Prop) l k :
  Forall2 P l k → (∀ x y, x ∈ l → P x y → Q x y) → Forall2 Q l k.
Proof.
  induction 1 as [|x y l k HP _ IH]; intros HPQ; constructor.
  - apply HPQ; [apply list_elem_of_here|done].
  - apply IH. intros ????. apply HPQ; [by apply list_elem_of_further|done].
Qed.

(** The value of the whole [method_rules] array the body of
    [allowlistToken] refers to. *)
Lemma allowlistToken_snapshot σ p tokenName tokenAddress a mr mrs :
  existing_method_rules p = Some a →
  snapshot σ a = Some (mr :: mrs) →
  first_unshared σ a →
  ∃ body σ' a',
    allowlistToken p tokenName tokenAddress σ = Some (body, σ') ∧
    name body = Some (existing_name p) ∧
    updated_method_rules body = Some a' ∧
    updated_default_action body = None ∧
    snapshot σ' a' =
      Some ({| method := method mr;
               rules := rules mr ++ [newRule tokenName tokenAddress] |} :: mrs).
Proof.
  intros Hp (first & rest & o & Ha & Ho & Hr & Hm & Hrest)%snapshot_cons_inv Hsep.
  destruct (Hsep first rest o Ha Ho) as [_ Hrules].
  eexists _, _, _.
  split; [by eapply EditorProperties.allowlistToken_run|].
  do 3 (split; [reflexivity|]).
  eapply snapshot_intro; [apply lookup_insert_eq|].
  constructor.
  - unfold snapshot_method_rule. simpl. rewrite Ho. simpl.
    rewrite lookup_insert_eq. simpl. by rewrite Hm.
  - eapply Forall2_impl_elem; [exact Hrest|].
    intros l y Hl Hy. unfold snapshot_method_rule in *. simpl.
    destruct (method_rule_objs σ !! l) as [o'|] eqn:Ho'; [|discriminate].
    simpl in *. rewrite lookup_insert_ne; [done|].
    intros Heq. by apply (Hrules l o' Hl Ho').
Qed.

Lemma denylistToken_snapshot σ p tokenName tokenAddress a mr mrs :
  existing_method_rules p = Some a →
  snapshot σ a = Some (mr :: mrs) →
  first_unshared σ a →
  ∃ body σ' a',
    denylistToken p tokenName tokenAddress σ = Some (body, σ') ∧
    name body = Some (existing_name p) ∧
    updated_method_rules body = Some a' ∧
    updated_default_action body = None ∧
    snapshot σ' a' =
      Some ({| method := method mr;
               rules := filter (λ rule, ¬ targets_token tokenAddress rule) (rules mr) |}
            :: mrs).
Proof.
  intros Hp (first & rest & o & Ha & Ho & Hr & Hm & Hrest)%snapshot_cons_inv Hsep.
  destruct (Hsep first rest o Ha Ho) as [Hfirst _].
  eexists _, _, _.
  split; [by eapply EditorProperties.denylistToken_run|].
  do 3 (split; [reflexivity|]).
  eapply snapshot_intro; [apply lookup_insert_eq|].
  constructor.
  - unfold snapshot_method_rule. simpl. rewrite lookup_insert_eq. simpl.
    rewrite lookup_insert_eq. simpl.
    by rewrite Hm, EditorProperties.filter_keep_rule.
  - eapply Forall2_impl_elem; [exact Hrest|].
    intros l y Hl Hy. unfold snapshot_method_rule in *. simpl.
    rewrite lookup_insert_ne by (by intros ->).
    destruct (method_rule_objs σ !! l) as [o'|] eqn:Ho'; [|discriminate].
    simpl in *.
    destruct (rule_arrays σ !! obj_rules o') as [rs'|] eqn:Hr'; [|discriminate].
    rewrite lookup_insert_ne; [by rewrite Hr'|].
    intros Heq. apply (is_fresh (dom (rule_arrays σ))).
    rewrite Heq. apply elem_of_dom. eauto.
Qed.

(** *** Parsed policies *)

Lemma load_locs_ge l mrs x : x ∈ load_locs l mrs → (l ≤ x)%positive.
Proof.
  revert l. induction mrs as [|mr mrs IH]; intros l; simpl.
  - by intros ?%elem_of_nil.
  - intros [->|Hx%IH]%elem_of_cons; lia.
Qed.

Lemma load_objs_rules l mrs x o : load_objs l mrs !! x = Some o → obj_rules o = x.
Proof.
  revert l. induction mrs as [|mr mrs IH]; intros l; simpl.
  - by rewrite lookup_empty.
  - destruct (decide (l = x)) as [->|Hne].
    + rewrite lookup_insert_eq. by intros [= <-].
    + rewrite lookup_insert_ne by done. apply IH.
Qed.

Lemma load_resolves l mrs :
  Forall2 (λ x y,
             load_objs l mrs !! x = Some {| obj_method := method y; obj_rules := x |} ∧
             load_arrays l mrs !! x = Some (rules y))
          (load_locs l mrs) mrs.
Proof.
  revert l. induction mrs as [|mr mrs IH]; intros l; simpl; constructor.
  - by rewrite !lookup_insert_eq.
  - eapply Forall2_impl_elem; [apply IH|].
    intros x y Hx%load_locs_ge [Hobj Harr].
    rewrite !lookup_insert_ne by lia. done.
Qed.

(** Loading a parsed policy and reading it back gives the policy's
    method rules. *)
Lemma load_snapshot policy :
  snapshot (load_store policy) 1%positive = Some (method_rules policy).
Proof.
  eapply snapshot_intro; [apply lookup_singleton_eq|].
  eapply Forall2_impl; [apply load_resolves|].
  intros x y [Hobj Harr]. unfold snapshot_method_rule. simpl.
  rewrite Hobj. simpl. rewrite Harr. by destruct y.
Qed.

Lemma load_first_unshared policy : first_unshared (load_store policy) 1%positive.
Proof.
  intros first rest o. unfold load_store. simpl. rewrite lookup_singleton_eq.
  destruct (method_rules policy) as [|mr mrs]; simpl; [discriminate|].
  intros [= <- <-]. rewrite lookup_insert_eq. intros [= <-]. simpl. split.
  - intros Hin%load_locs_ge. lia.
  - intros l o' Hl%load_locs_ge. rewrite lookup_insert_ne by lia.
    intros ->%load_objs_rules. lia.
Qed.

(** *** Filtering *)

Lemma filter_all {A} (P : A → Prop) `{!∀ x, Decision (P x)} (l : list A) :
  Forall P l → filter P l = l.
Proof.
  induction 1 as [|x l Hx _ IH]; [reflexivity|].
  by rewrite filter_cons_True, IH.
Qed.

Lemma Forall_filter {A} (P : A → Prop) `{!∀ x, Decision (P x)} (l : list A) :
  Forall P (filter P l).
Proof. apply Forall_forall. by intros x [? _]%list_elem_of_filter. Qed.

Lemma newRule_targets tokenName tokenAddress :
  targets_token tokenAddress (newRule tokenName tokenAddress).
Proof. unfold targets_token, condition_matches. simpl. by apply Exists_cons_hd. Qed.

(** The rule list [denylistToken] leaves, in the body and in the policy
    it was given. *)
Lemma denylistToken_result σ p tokenName tokenAddress a rs :
  existing_method_rules p = Some a →
  first_rules σ a = Some rs →
  ∃ body σ' a',
    denylistToken p tokenName tokenAddress σ = Some (body, σ') ∧
    name body = Some (existing_name p) ∧
    updated_method_rules body = Some a' ∧
    first_rules σ' a' = Some (filter (λ rule, ¬ targets_token tokenAddress rule) rs).
Proof.
  intros Hp (first & rest & o & Ha & Ho & Hr)%EditorProperties.first_rules_inv.
  eexists _, _, _. split; [by eapply EditorProperties.denylistToken_run|].
  split; [reflexivity|]. split; [reflexivity|].
  rewrite <- EditorProperties.filter_keep_rule.
  eapply EditorProperties.first_rules_intro; simpl; apply lookup_insert_eq.
Qed.

(** X1: on a policy whose first method rule shares nothing with the
    other method rules (as in every parsed policy), both operations
    change the rule list of the first method rule only: its method name
    stays, whatever it is, and every other method rule comes back as it
    was; the body has no default action. *)
Theorem editor_touches_first_method_rule_only σ p tokenName tokenAddress a mr mrs :
  existing_method_rules p = Some a →
  snapshot σ a = Some (mr :: mrs) →
  first_unshared σ a →
  (∃ body σ' a',
     allowlistToken p tokenName tokenAddress σ = Some (body, σ') ∧
     name body = Some (existing_name p) ∧
     updated_method_rules body = Some a' ∧
     updated_default_action body = None ∧
     snapshot σ' a' =
       Some ({| method := method mr;
                rules := rules mr ++ [newRule tokenName tokenAddress] |} :: mrs)) ∧
  (∃ body σ' a',
     denylistToken p tokenName tokenAddress σ = Some (body, σ') ∧
     name body = Some (existing_name p) ∧
     updated_method_rules body = Some a' ∧
     updated_default_action body = None ∧
     snapshot σ' a' =
       Some ({| method := method mr;
                rules := filter (λ rule, ¬ targets_token tokenAddress rule) (rules mr) |}
             :: mrs)).
Proof.
  intros Hp Hsnap Hsep. split.
  - exact (allowlistToken_snapshot σ p tokenName tokenAddress a mr mrs Hp Hsnap Hsep).
  - exact (denylistToken_snapshot σ p tokenName tokenAddress a mr mrs Hp Hsnap Hsep).
Qed.

Lemma editor_touches_first_method_rule_only_witness :
  (∃ body σ' a',
     allowlistToken (load_policy two_method_policy) "USDC" "0xBBB"
       (load_store two_method_policy) = Some (body, σ') ∧
     name body = Some (existing_name (load_policy two_method_policy)) ∧
     updated_method_rules body = Some a' ∧
     updated_default_action body = None ∧
     snapshot σ' a' =
       Some ({| method := method {| method := "personal_sign";
                                     rules := [newRule "USDT" "0xAAA"] |};
                rules := rules {| method := "personal_sign";
                                  rules := [newRule "USDT" "0xAAA"] |} ++
                         [newRule "USDC" "0xBBB"] |}
             :: [ {| method := "eth_sendTransaction"; rules := [newRule "DAI" "0xDDD"] |} ])) ∧
  (∃ body σ' a',
     denylistToken (load_policy two_method_policy) "USDC" "0xBBB"
       (load_store two_method_policy) = Some (body, σ') ∧
     name body = Some (existing_name (load_policy two_method_policy)) ∧
     updated_method_rules body = Some a' ∧
     updated_default_action body = None ∧
     snapshot σ' a' =
       Some ({| method := method {| method := "personal_sign";
                                     rules := [newRule "USDT" "0xAAA"] |};
                rules := filter (λ rule, ¬ targets_token "0xBBB" rule)
                           (rules {| method := "personal_sign";
                                     rules := [newRule "USDT" "0xAAA"] |}) |}
             :: [ {| method := "eth_sendTransaction"; rules := [newRule "DAI" "0xDDD"] |} ])).
Proof.
  apply (editor_touches_first_method_rule_only
           (load_store two_method_policy) (load_policy two_method_policy)
           "USDC" "0xBBB" 1%positive).
  - reflexivity.
  - vm_compute. reflexivity.
  - apply load_first_unshared.
Defined.

(** X2: [denylistToken] with an address that no rule of the first
    method rule matches returns the rule list it found. *)
Theorem denylistToken_unknown_address σ p tokenName tokenAddress a rs :
  existing_method_rules p = Some a →
  first_rules σ a = Some rs →
  Forall (λ rule, ¬ targets_token tokenAddress rule) rs →
  ∃ body σ' a',
    denylistToken p tokenName tokenAddress σ = Some (body, σ') ∧
    updated_method_rules body = Some a' ∧
    first_rules σ' a' = Some rs.
Proof.
  intros Hp Hrs Hnone.
  destruct (denylistToken_result σ p tokenName tokenAddress a rs Hp Hrs)
    as (body & σ' & a' & Hrun & _ & Ha' & Hfirst).
  exists body, σ', a'. split; [done|]. split; [done|].
  by rewrite Hfirst, filter_all.
Qed.

Lemma denylistToken_unknown_address_witness :
  ∃ body σ' a',
    denylistToken sample_policy "USDC" "0xBBB"
      (single_method_store [newRule "USDT" "0xAAA"]) = Some (body, σ') ∧
    updated_method_rules body = Some a' ∧
    first_rules σ' a' = Some [newRule "USDT" "0xAAA"].
Proof.
  apply (denylistToken_unknown_address
           (single_method_store [newRule "USDT" "0xAAA"]) sample_policy
           "USDC" "0xBBB" 1%positive [newRule "USDT" "0xAAA"]).
  - reflexivity.
  - vm_compute. reflexivity.
  - repeat constructor. apply (bool_decide_unpack _). vm_compute. exact I.
Defined.

(** X3: after [denylistToken] no rule of the first method rule matches
    the address, and a second [denylistToken] for the same address, on
    any policy object holding that rule list, returns the same list. *)
Theorem denylistToken_clears_address σ p tokenName tokenAddress a rs :
  existing_method_rules p = Some a →
  first_rules σ a = Some rs →
  ∃ body1 σ1 a1 rs1,
    denylistToken p tokenName tokenAddress σ = Some (body1, σ1) ∧
    updated_method_rules body1 = Some a1 ∧
    first_rules σ1 a1 = Some rs1 ∧
    Forall (λ rule, ¬ targets_token tokenAddress rule) rs1 ∧
    ∀ σ1' p2 a2 otherName,
      existing_method_rules p2 = Some a2 →
      first_rules σ1' a2 = Some rs1 →
      ∃ body2 σ2 a3,
        denylistToken p2 otherName tokenAddress σ1' = Some (body2, σ2) ∧
        updated_method_rules body2 = Some a3 ∧
        first_rules σ2 a3 = Some rs1.
Proof.
  intros Hp Hrs.
  destruct (denylistToken_result σ p tokenName tokenAddress a rs Hp Hrs)
    as (body1 & σ1 & a1 & Hrun1 & _ & Ha1 & Hfirst1).
  eexists body1, σ1, a1, _. split; [done|]. split; [done|]. split; [exact Hfirst1|].
  split; [apply Forall_filter|].
  intros σ1' p2 a2 otherName Hp2 Hsame.
  destruct (denylistToken_result σ1' p2 otherName tokenAddress a2 _ Hp2 Hsame)
    as (body2 & σ2 & a3 & Hrun2 & _ & Ha3 & Hfirst2).
  exists body2, σ2, a3. split; [done|]. split; [done|].
  rewrite Hfirst2. f_equal. apply filter_all, Forall_filter.
Qed.

Lemma denylistToken_clears_address_witness :
  ∃ body1 σ1 a1 rs1,
    denylistToken sample_policy "USDT" "0xAAA"
      (single_method_store [newRule "USDT" "0xAAA"; newRule "USDC" "0xBBB";
                            newRule "Tether" "0xAAA"]) = Some (body1, σ1) ∧
    updated_method_rules body1 = Some a1 ∧
    first_rules σ1 a1 = Some rs1 ∧
    Forall (λ rule, ¬ targets_token "0xAAA" rule) rs1 ∧
    ∀ σ1' p2 a2 otherName,
      existing_method_rules p2 = Some a2 →
      first_rules σ1' a2 = Some rs1 →
      ∃ body2 σ2 a3,
        denylistToken p2 otherName "0xAAA" σ1' = Some (body2, σ2) ∧
        updated_method_rules body2 = Some a3 ∧
        first_rules σ2 a3 = Some rs1.
Proof.
  apply (denylistToken_clears_address
           (single_method_store [newRule "USDT" "0xAAA"; newRule "USDC" "0xBBB";
                                 newRule "Tether" "0xAAA"])
           sample_policy "USDT" "0xAAA" 1%positive
           [newRule "USDT" "0xAAA"; newRule "USDC" "0xBBB"; newRule "Tether" "0xAAA"]).
  - reflexivity.
  - vm_compute. reflexivity.
Defined.

(** X4: [allowlistToken] followed by [denylistToken] for the same address
    leaves the original rule list without the rules that matched the
    address: the rule just added is removed again, together with every
    older rule for that address, and when there was none the original
    list is back. *)
Theorem allowlist_then_denylist σ p tokenName tokenAddress a rs :
  existing_method_rules p = Some a →
  first_rules σ a = Some rs →
  ∃ body1 σ1 a1,
    allowlistToken p tokenName tokenAddress σ = Some (body1, σ1) ∧
    updated_method_rules body1 = Some a1 ∧
    ∀ σ1' p2 a2 otherName,
      existing_method_rules p2 = Some a2 →
      first_rules σ1' a2 = first_rules σ1 a1 →
      ∃ body2 σ2 a3,
        denylistToken p2 otherName tokenAddress σ1' = Some (body2, σ2) ∧
        updated_method_rules body2 = Some a3 ∧
        first_rules σ2 a3 =
          Some (filter (λ rule, ¬ targets_token tokenAddress rule) rs) ∧
        (Forall (λ rule, ¬ targets_token tokenAddress rule) rs →
         first_rules σ2 a3 = Some rs).
Proof.
  intros Hp Hrs.
  destruct (EditorProperties.allowlistToken_result σ p tokenName tokenAddress a rs Hp Hrs)
    as (body1 & σ1 & a1 & Hrun1 & _ & Ha1 & Hfirst1).
  exists body1, σ1, a1. split; [done|]. split; [done|].
  intros σ1' p2 a2 otherName Hp2 Hsame. rewrite Hfirst1 in Hsame.
  destruct (denylistToken_result σ1' p2 otherName tokenAddress a2 _ Hp2 Hsame)
    as (body2 & σ2 & a3 & Hrun2 & _ & Ha3 & Hfirst2).
  exists body2, σ2, a3. split; [done|]. split; [done|].
  assert (filter (λ rule, ¬ targets_token tokenAddress rule)
            (rs ++ [newRule tokenName tokenAddress]) =
          filter (λ rule, ¬ targets_token tokenAddress rule) rs) as Hfilter.
  { rewrite filter_app, filter_cons_False, filter_nil, app_nil_r; [done|].
    intros Hnot. apply Hnot, newRule_targets. }
  rewrite Hfirst2, Hfilter. split; [done|].
  intros Hnone. by rewrite filter_all.
Qed.

Lemma allowlist_then_denylist_witness :
  ∃ body1 σ1 a1,
    allowlistToken sample_policy "USDC" "0xBBB"
      (single_method_store [newRule "USDT" "0xAAA"]) = Some (body1, σ1) ∧
    updated_method_rules body1 = Some a1 ∧
    ∀ σ1' p2 a2 otherName,
      existing_method_rules p2 = Some a2 →
      first_rules σ1' a2 = first_rules σ1 a1 →
      ∃ body2 σ2 a3,
        denylistToken p2 otherName "0xBBB" σ1' = Some (body2, σ2) ∧
        updated_method_rules body2 = Some a3 ∧
        first_rules σ2 a3 =
          Some (filter (λ rule, ¬ targets_token "0xBBB" rule) [newRule "USDT" "0xAAA"]) ∧
        (Forall (λ rule, ¬ targets_token "0xBBB" rule) [newRule "USDT" "0xAAA"] →
         first_rules σ2 a3 = Some [newRule "USDT" "0xAAA"]).
Proof.
  apply (allowlist_then_denylist
           (single_method_store [newRule "USDT" "0xAAA"]) sample_policy
           "USDC" "0xBBB" 1%positive [newRule "USDT" "0xAAA"]).
  - reflexivity.
  - vm_compute. reflexivity.
Defined.

End EditorFrame.

(* ===================================================================== *)
(** ** Properties of the REST clients *)
(* ===================================================================== *)

Module HttpProperties.
Import Actions Http.

Section Clients.

Variable base64 : string → string.
Variable ToString : JSON → string.
Variable net : Network.

(** The [catch] block of a client function only throws the error again. *)
Lemma try_send {T} (reply : list Request → Request → Reply T) request log :
  try_catch (send ToString reply request) rethrow log = send ToString reply request log.
Proof.
  unfold try_catch, send, rethrow, throw.
  destruct (reply log request) as [e|[d|e]|statusText [error|e]]; reflexivity.
Qed.

(** *** The body [updatePolicy] sends *)

Lemma edit_allowlist existingPolicy tokenName tokenAddress :
  edit false existingPolicy tokenName tokenAddress =
    Some {| body_name := Some (policy_name existingPolicy);
            body_method_rules :=
              Some match method_rules existingPolicy with
                   | [] => []
                   | mr :: rest =>
                       {| method := method mr;
                          rules := rules mr ++ [Editor.newRule tokenName tokenAddress] |}
                       :: rest
                   end;
            body_default_action := None |}.
Proof.
  unfold edit.
  destruct (method_rules existingPolicy) as [|mr rest] eqn:Hmrs.
  - rewrite (EditorProperties.allowlistToken_run_empty
               (Tree.load_store existingPolicy) (Tree.load_policy existingPolicy)
               tokenName tokenAddress 1%positive eq_refl)
      by (unfold Tree.load_store; simpl; by rewrite Hmrs, lookup_singleton_eq).
    simpl. unfold stringify, Editor.snapshot. simpl.
    by rewrite lookup_insert_eq.
  - destruct (EditorFrame.allowlistToken_snapshot
                (Tree.load_store existingPolicy) (Tree.load_policy existingPolicy)
                tokenName tokenAddress 1%positive mr rest eq_refl)
      as (body & σ' & a' & -> & Hname & Ha' & Hdefault & Hsnap).
    { by rewrite EditorFrame.load_snapshot, Hmrs. }
    { apply EditorFrame.load_first_unshared. }
    simpl. unfold stringify. rewrite Ha'. simpl. rewrite Hsnap. simpl.
    by rewrite Hname, Hdefault.
Qed.

Lemma edit_denylist existingPolicy tokenName tokenAddress :
  edit true existingPolicy tokenName tokenAddress =
    Some {| body_name := Some (policy_name existingPolicy);
            body_method_rules :=
              Some match method_rules existingPolicy with
                   | [] => []
                   | mr :: rest =>
                       {| method := method mr;
                          rules := filter (λ rule, ¬ Editor.targets_token tokenAddress rule)
                                          (rules mr) |}
                       :: rest
                   end;
            body_default_action := None |}.
Proof.
  unfold edit.
  destruct (method_rules existingPolicy) as [|mr rest] eqn:Hmrs.
  - rewrite (EditorProperties.denylistToken_run_empty
               (Tree.load_store existingPolicy) (Tree.load_policy existingPolicy)
               tokenName tokenAddress 1%positive eq_refl)
      by (unfold Tree.load_store; simpl; by rewrite Hmrs, lookup_singleton_eq).
    simpl. unfold stringify, Editor.snapshot. simpl.
    by rewrite lookup_insert_eq.
  - destruct (EditorFrame.denylistToken_snapshot
                (Tree.load_store existingPolicy) (Tree.load_policy existingPolicy)
                tokenName tokenAddress 1%positive mr rest eq_refl)
      as (body & σ' & a' & -> & Hname & Ha' & Hdefault & Hsnap).
    { by rewrite EditorFrame.load_snapshot, Hmrs. }
    { apply EditorFrame.load_first_unshared. }
    simpl. unfold stringify. rewrite Ha'. simpl. rewrite Hsnap. simpl.
    by rewrite Hname, Hdefault.
Qed.

(** *** The exchange *)

(** X5: the outcome of the exchange a client operation makes, for every
    reply.  An [ok] response returns the parsed body as it is (or throws
    the parse error).  A rejected [fetch], and an error body that is not
    JSON, throw the error they raise (the status text is not used); an
    error body that is a JSON object whose [message] is a non-empty
    string throws that message; an error body without a truthy
    [message] throws the status text.  In every case exactly the one
    request has been sent: nothing is retried. *)
Theorem client_exchange_outcome {T} (reply : list Request → Request → Reply T)
    request log statusText :
  (∀ data, reply log request = Ok (Returned data) →
        try_catch (send ToString reply request) rethrow log =
          Some (Returned data, log ++ [request])) ∧
  (∀ e, reply log request = Ok (Thrown e) ∨ reply log request = FetchFailed e ∨
        reply log request = NotOk statusText (Thrown e) →
        try_catch (send ToString reply request) rethrow log =
          Some (Thrown e, log ++ [request])) ∧
  (∀ fields m,
     reply log request = NotOk statusText (Returned (JObject fields)) →
     get_property "message" fields = Some (JString m) → m ≠ "" →
     try_catch (send ToString reply request) rethrow log =
       Some (Thrown (Error m), log ++ [request])) ∧
  (∀ error,
     reply log request = NotOk statusText (Returned error) →
     optional_message error = None ∨
     (∃ v, optional_message error = Some v ∧ truthy_json v = false) →
     try_catch (send ToString reply request) rethrow log =
       Some (Thrown (Error statusText), log ++ [request])).
Proof.
  rewrite try_send. unfold send. repeat split.
  - by intros data ->.
  - by intros e [->|[->| ->]].
  - intros fields m -> Hm Hne. unfold error_text. simpl. rewrite Hm. simpl.
    by destruct (String.eqb_spec m "").
  - intros error -> [Hnone|(v & Hv & Hfalsy)]; unfold error_text.
    + by rewrite Hnone.
    + by rewrite Hv, Hfalsy.
Qed.

(** *** [updatePolicy] *)

Lemma getPolicy_send privyAppID privyAppSecret authRequestKey policyId log :
  policyId ≠ "" →
  getPolicy base64 ToString net privyAppID privyAppSecret authRequestKey policyId log =
    send ToString (policy_reply net)
      {| url := POLICIES_URL +:+ "/" +:+ policyId;
         http_method := GET;
         headers := with_signature authRequestKey
                      (basic_headers base64 privyAppID privyAppSecret);
         body := None |} log.
Proof.
  intros Hne. unfold getPolicy.
  destruct (String.eqb_spec policyId "") as [?|_]; [done|].
  apply try_send.
Qed.

(** X6: when the policy cannot be read, [updatePolicy] throws the error
    of the read and sends nothing after the GET request: no PATCH is
    made. *)
Theorem updatePolicy_read_failure
    privyAppID privyAppSecret authRequestKey policyId tokenName tokenAddress remove
    log e :
  policyId ≠ "" →
  let get :=
    {| url := POLICIES_URL +:+ "/" +:+ policyId;
       http_method := GET;
       headers := with_signature authRequestKey (basic_headers base64 privyAppID privyAppSecret);
       body := None |} in
  send ToString (policy_reply net) get log = Some (Thrown e, log ++ [get]) →
  updatePolicy base64 ToString net privyAppID privyAppSecret authRequestKey
    policyId tokenName tokenAddress remove log = Some (Thrown e, log ++ [get]).
Proof.
  intros Hne get Hget.
  unfold updatePolicy.
  destruct (String.eqb_spec policyId "") as [?|_]; [done|].
  unfold try_catch, bind.
  rewrite (getPolicy_send privyAppID privyAppSecret authRequestKey policyId log Hne).
  fold get. rewrite Hget. reflexivity.
Qed.

(** X7: when the policy is read, [updatePolicy] sends exactly two
    requests, the GET and then a PATCH to the same URL, and its outcome
    is that of the PATCH exchange.  The PATCH body carries the name of
    the policy read and all its method rules, with only the rule list of
    the first one changed (the new rule appended, or the rules for the
    address filtered out), and no default action.  The GET request
    carries the authorization signature when a key was given; the PATCH
    request never does. *)
Theorem updatePolicy_patch
    privyAppID privyAppSecret authRequestKey policyId tokenName tokenAddress
    (remove : bool) log existingPolicy :
  policyId ≠ "" →
  let get :=
    {| url := POLICIES_URL +:+ "/" +:+ policyId;
       http_method := GET;
       headers := with_signature authRequestKey (basic_headers base64 privyAppID privyAppSecret);
       body := None |} in
  let updatedPolicy :=
    {| body_name := Some (policy_name existingPolicy);
       body_method_rules :=
         Some match method_rules existingPolicy with
              | [] => []
              | mr :: rest =>
                  {| method := method mr;
                     rules :=
                       if remove
                       then filter (λ rule, ¬ Editor.targets_token tokenAddress rule) (rules mr)
                       else rules mr ++ [Editor.newRule tokenName tokenAddress] |}
                  :: rest
              end;
       body_default_action := None |} in
  let patch :=
    {| url := POLICIES_URL +:+ "/" +:+ policyId;
       http_method := PATCH;
       headers := basic_headers base64 privyAppID privyAppSecret;
       body := Some (UpdatePolicyBody updatedPolicy) |} in
  policy_reply net log get = Ok (Returned existingPolicy) →
  updatePolicy base64 ToString net privyAppID privyAppSecret authRequestKey
    policyId tokenName tokenAddress remove log =
    send ToString (policy_reply net) patch (log ++ [get]) ∧
  (∃ outcome,
     send ToString (policy_reply net) patch (log ++ [get]) =
       Some (outcome, log ++ [get; patch])) ∧
  headers get !! "privy-authorization-signature" = Js.nonempty authRequestKey ∧
  headers patch !! "privy-authorization-signature" = None.
Proof.
  intros Hne get updatedPolicy patch Hget.
  assert (edit remove existingPolicy tokenName tokenAddress = Some updatedPolicy) as Hedit.
  { subst updatedPolicy. destruct remove.
    - rewrite edit_denylist. by destruct (method_rules existingPolicy).
    - rewrite edit_allowlist. by destruct (method_rules existingPolicy). }
  split; [|split; [|split]].
  - unfold updatePolicy.
    destruct (String.eqb_spec policyId "") as [?|_]; [done|].
    unfold try_catch, bind.
    rewrite (getPolicy_send privyAppID privyAppSecret authRequestKey policyId log Hne).
    fold get. unfold send at 1. rewrite Hget.
    unfold lift. rewrite Hedit. fold patch.
    unfold send, rethrow, throw.
    by destruct (policy_reply net (log ++ [get]) patch) as [?|[?|?]|? [?|?]].
  - unfold send. rewrite <- (assoc_L (++)). simpl.
    destruct (policy_reply net (log ++ [get]) patch) as [?|[?|?]|? [?|?]]; eauto.
  - subst get. simpl. unfold with_signature, basic_headers.
    destruct (Js.nonempty authRequestKey); [by rewrite lookup_insert_eq|reflexivity].
  - reflexivity.
Qed.

End Clients.

Lemma updatePolicy_read_failure_witness :
  updatePolicy sample_base64 sample_ToString failing_network "app-id" "app-secret" None
    "policy-9" "USDC" "0xBBB" false [] =
    Some (Thrown (Error "Not Found"),
          [] ++ [ {| url := POLICIES_URL +:+ "/" +:+ "policy-9";
                     http_method := GET;
                     headers := with_signature None
                                  (basic_headers sample_base64 "app-id" "app-secret");
                     body := None |} ]).
Proof.
  apply (updatePolicy_read_failure sample_base64 sample_ToString failing_network
           "app-id" "app-secret" None "policy-9" "USDC" "0xBBB" false []
           (Error "Not Found")).
  - discriminate.
  - vm_compute. reflexivity.
Defined.

Lemma updatePolicy_patch_witness :
  updatePolicy sample_base64 sample_ToString sample_network "app-id" "app-secret"
    (Some "signing-key") "policy-2" "USDC" "0xBBB" false [] =
    send sample_ToString (policy_reply sample_network)
      {| url := POLICIES_URL +:+ "/" +:+ "policy-2";
         http_method := PATCH;
         headers := basic_headers sample_base64 "app-id" "app-secret";
         body := Some (UpdatePolicyBody
           {| body_name := Some (policy_name Tree.two_method_policy);
              body_method_rules :=
                Some match method_rules Tree.two_method_policy with
                     | [] => []
                     | mr :: rest =>
                         {| method := method mr;
                            rules :=
                              if false
                              then filter (λ rule, ¬ Editor.targets_token "0xBBB" rule)
                                          (rules mr)
                              else rules mr ++ [Editor.newRule "USDC" "0xBBB"] |}
                         :: rest
                     end;
              body_default_action := None |}) |}
      ([] ++ [ {| url := POLICIES_URL +:+ "/" +:+ "policy-2";
                  http_method := GET;
                  headers := with_signature (Some "signing-key")
                               (basic_headers sample_base64 "app-id" "app-secret");
                  body := None |} ]).
Proof.
  apply (updatePolicy_patch sample_base64 sample_ToString sample_network
           "app-id" "app-secret" (Some "signing-key")
           "policy-2" "USDC" "0xBBB" false [] Tree.two_method_policy).
  - discriminate.
  - reflexivity.
Defined.

(** The body of that PATCH, written out: the first method rule
    ([personal_sign]) has received the rule, the second is untouched. *)
Example updatePolicy_patch_example :
  edit false Tree.two_method_policy "USDC" "0xBBB" =
    Some {| body_name := Some "TwoMethods";
            body_method_rules :=
              Some [ {| method := "personal_sign";
                        rules := [Editor.newRule "USDT" "0xAAA";
                                  Editor.newRule "USDC" "0xBBB"] |};
                     {| method := "eth_sendTransaction";
                        rules := [Editor.newRule "DAI" "0xDDD"] |} ];
            body_default_action := None |}.
Proof. vm_compute. reflexivity. Qed.

(** A rejected transaction: the message of the error body is what
    [sendTransaction] throws; a signature refused without a message
    throws the status text; an error page that is not JSON throws the
    parse error. *)
Example sendTransaction_rejected :
  sendTransaction sample_base64 sample_ToString sample_network "app-id" "app-secret"
    {| tx_wallet_id := "wallet-1"; tx_to := "0xE3"; tx_value := "1000"; tx_data := None |}
    [] =
    Some (Thrown (Error "Transaction denied by policy"),
          [ {| url := "https://api.privy.io/v1/wallets/wallet-1/transactions";
               http_method := POST;
               headers := basic_headers sample_base64 "app-id" "app-secret";
               body := Some (TransactionBody "0xE3" "1000" None) |} ]).
Proof. vm_compute. reflexivity. Qed.

Example signTransaction_refused :
  fst <$> signTransaction sample_base64 sample_ToString sample_network "app-id" "app-secret"
            "wallet-1" "Hello, world!" [] = Some (Thrown (Error "Forbidden")).
Proof. vm_compute. reflexivity. Qed.

Example getWallets_unparsable :
  fst <$> getWallets sample_base64 sample_ToString sample_network "app-id" "app-secret" [] =
    Some (Thrown (Error "Unexpected token < in JSON")).
Proof. vm_compute. reflexivity. Qed.

End HttpProperties.

(* ===================================================================== *)
(** ** The calls the handlers make *)
(* ===================================================================== *)

Module HandlerCalls.
Import Actions Calls.

Lemma nonempty_ne v s : Js.nonempty v = Some s → s ≠ "".
Proof. by intros [_ ?]%ActionProperties.nonempty_Some. Qed.

Lemma name_option_ne config options : name_option config options ≠ "".
Proof.
  unfold name_option, Js.or_else.
  destruct (Js.nonempty _) eqn:H; [by eapply nonempty_ne|discriminate].
Qed.

Lemma eqb_nonempty v s : Js.nonempty v = Some s → String.eqb s "" = false.
Proof. intros H%nonempty_ne. by apply String.eqb_neq. Qed.

(** What the configuration hands to a [try] block. *)
Lemma validatePrivyConfig_returned runtime log cfg log0 :
  validatePrivyConfig runtime log = (Returned cfg, log0) →
  log0 = log ∧
  Js.nonempty (getSetting runtime "PRIVY_APP_ID") = Some (PRIVY_APP_ID cfg) ∧
  Js.nonempty (getSetting runtime "PRIVY_APP_SECRET") = Some (PRIVY_APP_SECRET cfg).
Proof.
  rewrite ActionProperties.validatePrivyConfig_unfold.
  destruct (Js.nonempty (getSetting runtime "PRIVY_APP_ID")); [|discriminate].
  destruct (Js.nonempty (getSetting runtime "PRIVY_APP_SECRET")); [|discriminate].
  by intros [= <- <-].
Qed.

(** The calls of a [try] block: none, and then no success; or one, for
    the operation of the action, with the configured credentials and
    with every required field filled in. *)
Lemma try_block_calls api config runtime options a log o log' :
  try_block api config runtime options a log = (o, log') →
  (log' = log ∧ ∀ r, o = Returned r → success r = false) ∨ one_call runtime a log log'.
Proof.
  destruct (validatePrivyConfig runtime log) as [[cfg|e] log0] eqn:Hcfg.
  2: { assert (log0 = log) as ->
         by (by rewrite <- (ActionProperties.validatePrivyConfig_log runtime log), Hcfg).
       rewrite (ActionProperties.try_block_config_error api config runtime options a
                  log e log Hcfg).
       intros [= <- <-]. left. split; [done|]. intros ? [=]. }
  destruct (validatePrivyConfig_returned runtime log cfg log0 Hcfg) as (-> & Hid & Hsecret).
  pose proof (name_option_ne config options) as Hname.
  destruct a; simpl;
    unfold get_policy_try, create_policy_try, update_policy_try, create_wallet_try,
      update_wallet_try, get_wallets_try, send_transaction_try, sign_transaction_try,
      bind; rewrite Hcfg.
  - simpl. destruct (Js.nonempty (policyId_option config options)) as [policyId|] eqn:Hp.
    2: { intros [= <- <-]. no_call. }
    rewrite (eqb_nonempty _ _ Hp). unfold perform.
    destruct (api_getPolicy _ _ _ _ _); intros [= <- <-]; right;
      (eexists; split; [reflexivity|]; simpl; repeat split; eauto using nonempty_ne).
  - simpl. unfold perform.
    destruct (api_createPolicy _ _ _ _); intros [= <- <-]; right;
      (eexists; split; [reflexivity|]; simpl; repeat split; eauto using nonempty_ne).
  - simpl. destruct (Js.nonempty (policyId_option config options)) as [policyId|] eqn:Hp.
    2: { intros [= <- <-]. no_call. }
    destruct (Js.nonempty (options ≫= opt_tokenName)) as [tokenName|] eqn:Htn.
    2: { intros [= <- <-]. no_call. }
    destruct (Js.nonempty (options ≫= opt_tokenAddress)) as [tokenAddress|] eqn:Hta.
    2: { intros [= <- <-]. no_call. }
    rewrite (eqb_nonempty _ _ Hp). unfold perform.
    destruct (api_updatePolicy _ _ _ _ _ _ _ _); intros [= <- <-]; right;
      (eexists; split; [reflexivity|]; simpl; repeat split; eauto using nonempty_ne).
  - destruct (Js.array_includes ["ethereum"; "solana"; "monad"] (chainType_option options))
      eqn:Hchain; simpl.
    2: { intros [= <- <-]. no_call. }
    unfold perform.
    assert (chainType_option options = "ethereum" ∨ chainType_option options = "solana" ∨
            chainType_option options = "monad") as Hcases.
    { apply ActionProperties.array_includes_spec in Hchain.
      repeat (apply elem_of_cons in Hchain as [Hchain|Hchain]; [eauto|]).
      by apply elem_of_nil in Hchain. }
    assert ((if String.eqb (chainType_option options) "monad" then "ethereum"
             else chainType_option options) = "ethereum" ∨
            (if String.eqb (chainType_option options) "monad" then "ethereum"
             else chainType_option options) = "solana") as Hapi.
    { destruct Hcases as [H|[H|H]]; rewrite H; simpl; auto. }
    assert (match Js.nonempty (policyId_option config options) with
            | Some policyId => Some [policyId]
            | None => None
            end = None ∨
            ∃ policyId, policyId ≠ "" ∧
              match Js.nonempty (policyId_option config options) with
              | Some policyId => Some [policyId]
              | None => None
              end = Some [policyId]) as Hids.
    { destruct (Js.nonempty (policyId_option config options)) eqn:Hp; [|by left].
      right. eexists. split; [by eapply nonempty_ne|done]. }
    destruct (api_createWallet _ _ _ _); intros [= <- <-]; right;
      (eexists; split; [reflexivity|]; simpl; repeat split; eauto).
  - simpl. destruct (Js.nonempty (options ≫= opt_walletId)) as [walletId|] eqn:Hw.
    2: { intros [= <- <-]. no_call. }
    destruct (options ≫= opt_policyIds) as [[|policyId policyIds]|] eqn:Hids.
    1,3: intros [= <- <-]; no_call.
    rewrite (eqb_nonempty _ _ Hw). unfold perform.
    destruct (api_updateWallet _ _ _ _ _); intros [= <- <-]; right;
      (eexists; split; [reflexivity|]; simpl; repeat split; eauto using nonempty_ne).
  - simpl. unfold perform.
    destruct (api_getWallets _ _ _) as [[|w ws]|e]; intros [= <- <-]; right;
      (eexists; split; [reflexivity|]; simpl; repeat split; eauto).
  - simpl. destruct (Js.nonempty (options ≫= opt_walletId)) as [walletId|] eqn:Hw.
    2: { intros [= <- <-]. no_call. }
    destruct (Js.nonempty (options ≫= opt_to)) as [to|] eqn:Hto.
    2: { intros [= <- <-]. no_call. }
    destruct (Js.nonempty (options ≫= opt_value)) as [value|] eqn:Hv.
    2: { intros [= <- <-]. no_call. }
    simpl. rewrite (eqb_nonempty _ _ Hw). unfold perform.
    destruct (api_sendTransaction _ _ _ _); intros [= <- <-]; right;
      (eexists; split; [reflexivity|]; simpl; repeat split; eauto using nonempty_ne).
  - simpl. destruct (Js.nonempty (options ≫= opt_walletId)) as [walletId|] eqn:Hw.
    2: { intros [= <- <-]. no_call. }
    destruct (Js.nonempty (options ≫= opt_message)) as [msg|] eqn:Hm.
    2: { intros [= <- <-]. no_call. }
    rewrite (eqb_nonempty _ _ Hw). unfold perform.
    destruct (api_signTransaction _ _ _ _ _); intros [= <- <-]; right;
      (eexists; split; [reflexivity|]; simpl; repeat split; eauto using nonempty_ne).
Qed.

Lemma handler_calls api config runtime options a log :
  ∃ r log',
    handler api config runtime options a log = (Returned r, log') ∧
    ((log' = log ∧ success r = false) ∨
     one_call runtime a log log').
Proof.
  destruct (try_block api config runtime options a log) as [[r|e] log'] eqn:Htry.
  - exists r, log'. split; [by apply ActionProperties.handler_of_return|].
    destruct (try_block_calls _ _ _ _ _ _ _ _ Htry) as [[-> Hfail]|Hone]; [|by right].
    left. split; [done|]. by apply Hfail.
  - destruct (ActionProperties.catch_block_returns a e log') as (pre & post & Hcatch).
    eexists _, log'. split.
    + rewrite (ActionProperties.handler_of_throw _ _ _ _ _ _ _ _ Htry). exact Hcatch.
    + destruct (try_block_calls _ _ _ _ _ _ _ _ Htry) as [[-> _]|Hone]; [|by right].
      by left.
Qed.

(** X8: a handler makes at most one client call, and the call it makes
    is the operation of its own action, so the two read actions never
    create, update, send or sign; a success is reported only after that
    call. *)
Theorem handler_makes_one_call_of_its_kind api config runtime options a log :
  ∃ r log',
    handler api config runtime options a log = (Returned r, log') ∧
    (log' = log ∨ ∃ c, log' = log ++ [c] ∧ issued_by c a) ∧
    (success r = true → ∃ c, log' = log ++ [c] ∧ issued_by c a).
Proof.
  destruct (handler_calls api config runtime options a log)
    as (r & log' & Hrun & [[-> Hfail]|(c & -> & Hkind & _)]).
  - exists r, log. split; [done|]. split; [by left|].
    rewrite Hfail. discriminate.
  - exists r, (log ++ [c]). split; [done|]. split; [right|intros _]; eauto.
Qed.

(** X9: the calls a handler adds to the log, all of them, carry the
    PRIVY_APP_ID and PRIVY_APP_SECRET settings as credentials, both
    non-empty, and have their required fields filled in: a non-empty
    policy name, policy id, token name and address, wallet id, recipient,
    value and message where the operation takes them; a wallet is created
    on chain "ethereum" or "solana" with no policy or with one non-empty
    policy id; a wallet update carries at least one policy id. *)
Theorem handler_calls_are_complete api config runtime options a log :
  ∃ r log' calls,
    handler api config runtime options a log = (Returned r, log') ∧
    log' = log ++ calls ∧
    Forall (λ c,
              complete_call c ∧
              Js.nonempty (getSetting runtime "PRIVY_APP_ID") = Some (call_credentials c).1 ∧
              Js.nonempty (getSetting runtime "PRIVY_APP_SECRET") =
                Some (call_credentials c).2)
           calls.
Proof.
  destruct (handler_calls api config runtime options a log)
    as (r & log' & Hrun & [[-> Hfail]|(c & -> & _ & Hcomplete & Hid & Hsecret)]).
  - exists r, log, []. split; [done|]. split; [by rewrite app_nil_r|constructor].
  - exists r, (log ++ [c]), [c]. split; [done|]. split; [done|].
    constructor; [done|constructor].
Qed.

(** A wallet asked for on Monad with a default policy: the one call,
    complete. *)
Example create_wallet_call_example :
  handler sample_api {| defaultPolicyName := None; defaultPolicyId := Some "policy-1" |}
    sample_runtime (Some (chain_options "monad")) PRIVY_CREATE_WALLET [] =
    (Returned
       {| success := true;
          response :=
            "Successfully created a new Monad wallet with address: 0xE3070d3e4309afA3bC9a6b057685743CF42da77C. This wallet is compatible with the Monad blockchain.";
          data := Some (WalletData sample_wallet) |},
     [CreateWallet "app-id" "app-secret"
        {| chain_type := "ethereum"; policy_ids := Some ["policy-1"] |}]).
Proof. vm_compute. reflexivity. Qed.

(** *** [validate] *)

(** X10: [validate] never throws and makes no call; it answers [true]
    exactly when both PRIVY_APP_ID and PRIVY_APP_SECRET are set and
    non-empty. *)
Theorem validate_iff_secrets runtime log :
  ∃ b,
    validate runtime log = (Returned b, log) ∧
    (b = true ↔
     ¬ absent_or_empty (getSetting runtime "PRIVY_APP_ID") ∧
     ¬ absent_or_empty (getSetting runtime "PRIVY_APP_SECRET")).
Proof.
  unfold validate, try_catch, bind.
  rewrite ActionProperties.validatePrivyConfig_unfold.
  destruct (Js.nonempty (getSetting runtime "PRIVY_APP_ID")) as [app_id|] eqn:Hid.
  - destruct (Js.nonempty (getSetting runtime "PRIVY_APP_SECRET")) as [app_secret|] eqn:Hs.
    + exists true. split; [reflexivity|]. split; [intros _|done].
      rewrite <- !ActionProperties.truthy_absent_or_empty, Hid, Hs.
      split; discriminate.
    + exists false. split; [reflexivity|]. split; [discriminate|].
      rewrite <- !ActionProperties.truthy_absent_or_empty. by intros [_ ?].
  - exists false. split; [reflexivity|]. split; [discriminate|].
    rewrite <- !ActionProperties.truthy_absent_or_empty. by intros [? _].
Qed.

(** *** PRIVY_GET_POLICY and the names [allowlistToken] gives *)

Lemma replace_unfold pattern replacement s :
  Js.replace pattern replacement s =
    if String.prefix pattern s
    then replacement +:+ Js.skip (String.length pattern) s
    else match s with
         | EmptyString => EmptyString
         | String c rest => String c (Js.replace pattern replacement rest)
         end.
Proof. by destruct s. Qed.

Lemma prefix_append_self p t : String.prefix p (p +:+ t) = true.
Proof.
  induction p as [|c p IH]; [apply ActionProperties.prefix_empty|].
  rewrite ActionProperties.append_cons. simpl. by destruct (ascii_dec c c).
Qed.

Lemma skip_append_self p t : Js.skip (String.length p) (p +:+ t) = t.
Proof. induction p as [|c p IH]; [by destruct t|exact IH]. Qed.

Lemma replace_prefixed p t : Js.replace p "" (p +:+ t) = t.
Proof. by rewrite replace_unfold, prefix_append_self, skip_append_self. Qed.

(** X11: for a policy whose rules carry the names [allowlistToken] gives
    ("Allowlist " followed by the token name), the PRIVY_GET_POLICY
    handler lists exactly the token names, method rule by method rule
    and in rule order, whatever the token names are. *)
Theorem ruleNames_of_allowlisted policyData (tokens : list (list string)) :
  List.map (λ methodRule, List.map rule_name (rules methodRule)) (method_rules policyData) =
    List.map (List.map (λ tokenName, "Allowlist " +:+ tokenName)) tokens →
  ruleNames policyData = concat tokens.
Proof.
  unfold ruleNames. generalize (method_rules policyData). clear policyData.
  intros mrs. revert tokens.
  induction mrs as [|mr mrs IH]; intros [|ts tokens] H; try discriminate; [reflexivity|].
  simpl in H. injection H as Hnames Hrest. simpl.
  rewrite (IH tokens Hrest). f_equal.
  clear IH Hrest. revert ts Hnames.
  generalize (rules mr). intros rs.
  induction rs as [|r rs IH]; intros [|t ts] H; try discriminate; [reflexivity|].
  simpl in H. injection H as Hname Hrest. simpl.
  rewrite (IH ts Hrest), Hname. f_equal. apply replace_prefixed.
Qed.

Lemma ruleNames_of_allowlisted_witness :
  ruleNames Tree.two_method_policy = concat [["USDT"]; ["DAI"]].
Proof.
  apply (ruleNames_of_allowlisted Tree.two_method_policy [["USDT"]; ["DAI"]]).
  reflexivity.
Defined.

(** *** PRIVY_UPDATE_POLICY *)

(** X12: with a valid configuration and a policy id, token name and
    token address that are all non-empty, the PRIVY_UPDATE_POLICY handler
    makes the one [updatePolicy] call, with [remove] set only when the
    [remove] option is the boolean true (absent or false means add);
    when the client answers with the policy, the handler succeeds and
    its text says "added to" or "removed from" accordingly. *)
Theorem update_policy_call api config runtime opts log cfg policyId tokenName tokenAddress :
  validatePrivyConfig runtime log = (Returned cfg, log) →
  opt_policyId opts = Some policyId → policyId ≠ "" →
  opt_tokenName opts = Some tokenName → tokenName ≠ "" →
  opt_tokenAddress opts = Some tokenAddress → tokenAddress ≠ "" →
  let remove := bool_decide (opt_remove opts = Some true) in
  let action := if remove then "removed from" else "added to" in
  ∃ r,
    handler api config runtime (Some opts) PRIVY_UPDATE_POLICY log =
      (Returned r,
       log ++ [UpdatePolicy (name_option config (Some opts))
                 (PRIVY_APP_ID cfg) (PRIVY_APP_SECRET cfg)
                 policyId tokenName tokenAddress remove]) ∧
    ∀ policyData,
      api_updatePolicy api (name_option config (Some opts))
        (PRIVY_APP_ID cfg) (PRIVY_APP_SECRET cfg)
        policyId tokenName tokenAddress remove = Returned policyData →
      r = {| success := true;
             response :=
               "Successfully " +:+ action +:+ " the policy: token " +:+ tokenName +:+
               " (" +:+ tokenAddress +:+ ") has been " +:+ action +:+ " the allowlist.";
             data := Some (PolicyData policyData) |}.
Proof.
  intros Hcfg Hp Hpne Htn Htnne Hta Htane remove action.
  assert (Js.nonempty (policyId_option config (Some opts)) = Some policyId) as Hpid.
  { unfold policyId_option, Js.or_opt, Js.truthy. simpl. rewrite Hp.
    assert (Js.nonempty (Some policyId) = Some policyId) as Hn
      by (by apply ActionProperties.nonempty_Some).
    by rewrite Hn. }
  assert (Js.nonempty (Some opts ≫= opt_tokenName) = Some tokenName) as Htn'
    by (simpl; rewrite Htn; by apply ActionProperties.nonempty_Some).
  assert (Js.nonempty (Some opts ≫= opt_tokenAddress) = Some tokenAddress) as Hta'
    by (simpl; rewrite Hta; by apply ActionProperties.nonempty_Some).
  assert (match Some opts ≫= opt_remove with Some true => true | _ => false end = remove)
    as Hremove.
  { subst remove. simpl. destruct (opt_remove opts) as [[|]|]; reflexivity. }
  unfold handler, try_catch. simpl. unfold update_policy_try, bind.
  rewrite Hcfg, Hpid, Htn', Hta', Hremove. simpl.
  rewrite (proj2 (String.eqb_neq policyId "") Hpne). unfold perform.
  destruct (api_updatePolicy api _ _ _ _ _ _ _) as [policyData|e] eqn:Hapi.
  - eexists. split; [reflexivity|]. intros policyData' [= <-]. reflexivity.
  - eexists. split; [reflexivity|]. intros policyData' [=].
Qed.

Lemma update_policy_call_witness :
  ∃ r,
    handler sample_api DEFAULT_CONFIG sample_runtime
      (Some (update_options "policy-1" "USDC" "0xBBB" None)) PRIVY_UPDATE_POLICY [] =
      (Returned r,
       [] ++ [UpdatePolicy
                (name_option DEFAULT_CONFIG
                   (Some (update_options "policy-1" "USDC" "0xBBB" None)))
                "app-id" "app-secret" "policy-1" "USDC" "0xBBB"
                (bool_decide (opt_remove (update_options "policy-1" "USDC" "0xBBB" None) =
                              Some true))]) ∧
    ∀ policyData,
      api_updatePolicy sample_api
        (name_option DEFAULT_CONFIG (Some (update_options "policy-1" "USDC" "0xBBB" None)))
        "app-id" "app-secret" "policy-1" "USDC" "0xBBB"
        (bool_decide (opt_remove (update_options "policy-1" "USDC" "0xBBB" None) =
                      Some true)) = Returned policyData →
      r = {| success := true;
             response :=
               "Successfully " +:+
               (if bool_decide (opt_remove (update_options "policy-1" "USDC" "0xBBB" None) =
                                Some true)
                then "removed from" else "added to") +:+
               " the policy: token " +:+ "USDC" +:+ " (" +:+ "0xBBB" +:+ ") has been " +:+
               (if bool_decide (opt_remove (update_options "policy-1" "USDC" "0xBBB" None) =
                                Some true)
                then "removed from" else "added to") +:+
               " the allowlist.";
             data := Some (PolicyData policyData) |}.
Proof.
  apply (update_policy_call sample_api DEFAULT_CONFIG sample_runtime
           (update_options "policy-1" "USDC" "0xBBB" None) []
           {| PRIVY_APP_ID := "app-id"; PRIVY_APP_SECRET := "app-secret";
              PRIVY_MONAD_RPC_URL := None; PRIVY_MONAD_CHAIN_ID := None |}
           "policy-1" "USDC" "0xBBB");
    solve [vm_compute; reflexivity | discriminate].
Defined.

(** The same update, run. *)
Example update_policy_example :
  handler sample_api DEFAULT_CONFIG sample_runtime
    (Some (update_options "policy-1" "USDC" "0xBBB" None)) PRIVY_UPDATE_POLICY [] =
    (Returned
       {| success := true;
          response :=
            "Successfully added to the policy: token USDC (0xBBB) has been added to the allowlist.";
          data := Some (PolicyData sample_policy_response) |},
     [UpdatePolicy "DefaultPolicy" "app-id" "app-secret" "policy-1" "USDC" "0xBBB" false]).
Proof. vm_compute. reflexivity. Qed.

End HandlerCalls.
